(** * git-xltrail: the installer of [git-xltrail.py]

    A shallow embedding of the [Installer] class of [src/git-xltrail.py]
    and of the module-level rulesets it installs, with the properties the
    specification states about the key-file synchronisation
    ([update_git_file], [delete_git_file]) and about [install] and
    [uninstall].

    Modelling conventions.
    - A Python [str] is a [string] of 8-bit characters; [<] and [sorted]
      on [str] compare code points lexicographically, which is
      [String.compare].
    - The file system is a finite map from paths to the bytes of the
      regular file stored there, together with the log of the mutating
      calls ([open(path, 'w')] and [os.remove]) made so far.
    - The script only runs on Windows (it imports [winreg]), so files
      opened in text mode write every ['\n'] as [os.linesep = '\r\n'] and
      read ['\r\n'] and a lone ['\r'] back as ['\n'] (universal newlines).
    - [subprocess.run] is an external collaborator: a function from the
      command line and working directory to the captured output, threading
      an abstract state of the outside world.  The process is assumed to
      start (git is installed and the working directory exists). *)

From Stdlib Require Import Ascii String.
From stdpp Require Import gmap strings list sorting fin_maps.

Local Open Scope string_scope.
Local Open Scope list_scope.

(** ** Python string primitives *)

Module Py.

Definition LF : ascii := "010"%char.
Definition CR : ascii := "013"%char.

(** [s.split(sep)] for a one-character separator: one more field than
    there are separators, empty fields kept. *)
Fixpoint split (sep : ascii) (s : string) : list string :=
  match s with
  | EmptyString => [EmptyString]
  | String c s' =>
      if Ascii.eqb c sep then EmptyString :: split sep s'
      else match split sep s' with
           | [] => [String c EmptyString]
           | field :: fields => String c field :: fields
           end
  end.

(** [sep.join(fields)] *)
Definition join (sep : string) (fields : list string) : string :=
  String.concat sep fields.

(** [a <= b] on [str] *)
Definition le (a b : string) : Prop := String.leb a b = true.

#[export] Instance le_dec a b : Decision (le a b).
Proof. unfold le. apply _. Defined.

(** [sorted(l)] on a list of [str] *)
Definition sorted (l : list string) : list string := merge_sort le l.

(** [s[:n]], [s[n:]] and [s[:-n]] *)
Fixpoint take (n : nat) (s : string) : string :=
  match n, s with
  | S n', String c s' => String c (take n' s')
  | _, _ => EmptyString
  end.

Fixpoint drop (n : nat) (s : string) : string :=
  match n, s with
  | S n', String _ s' => drop n' s'
  | _, _ => s
  end.

Definition drop_last (n : nat) (s : string) : string :=
  take (String.length s - n) s.

(** [s.index(sub)]: the first position of [sub] in [s]; [None] stands
    for the [ValueError] that Python raises when there is none. *)
Definition index (s sub : string) : option nat := String.index 0 sub s.

(** truth value of an optional [str] argument: [None] and [''] are false *)
Definition truthy (o : option string) : bool :=
  match o with
  | Some s => negb (String.eqb s EmptyString)
  | None => false
  end.

End Py.

(** ** Text-mode file I/O on Windows *)

(** what [f.write] puts on disk for a text: every ['\n'] becomes
    [os.linesep] *)
Fixpoint newline_encode (text : string) : string :=
  match text with
  | EmptyString => EmptyString
  | String c text' =>
      if Ascii.eqb c Py.LF
      then String Py.CR (String Py.LF (newline_encode text'))
      else String c (newline_encode text')
  end.

(** what [f.read] returns for the bytes on disk: universal newlines *)
Fixpoint newline_decode (bytes : string) : string :=
  match bytes with
  | EmptyString => EmptyString
  | String c bytes' =>
      if Ascii.eqb c Py.CR then
        match bytes' with
        | String d bytes'' =>
            if Ascii.eqb d Py.LF then String Py.LF (newline_decode bytes'')
            else String Py.LF (newline_decode bytes')
        | EmptyString => String Py.LF EmptyString
        end
      else String c (newline_decode bytes')
  end.

Inductive fs_event : Type :=
  | FsWrite (path bytes : string)
  | FsRemove (path : string).

#[export] Instance fs_event_eq_dec : EqDecision fs_event.
Proof. solve_decision. Defined.

Record filesystem : Type := Filesystem {
  files : gmap string string;
  syscalls : list fs_event
}.

(** [os.path.exists(path)] *)
Definition os_path_exists (path : string) (fs : filesystem) : bool :=
  bool_decide (is_Some (files fs !! path)).

(** [with open(path, 'w') as f: f.writelines(text)] *)
Definition write_text (path text : string) (fs : filesystem) : filesystem :=
  {| files := <[path := newline_encode text]> (files fs);
     syscalls := syscalls fs ++ [FsWrite path (newline_encode text)] |}.

(** [os.remove(path)] on an existing file *)
Definition os_remove (path : string) (fs : filesystem) : filesystem :=
  {| files := delete path (files fs);
     syscalls := syscalls fs ++ [FsRemove path] |}.

(** ** Module constants *)

Definition GIT_XLTRAIL_DIFF : string := "git-xltrail-diff.exe".

(** Adjacent literals without a comma are concatenated by Python, so the
    list has sixteen elements, two of them glued. *)
Definition FILE_EXTENSIONS : list string :=
  ["xls"; "xlt"; "xla"; "xlam"; "xlsx"; "xlsm"; "xlsb"; "xltx"; "xltm";
   "doc"; "docm"; "dotm" +:+ "ppt"; "ppa" +:+ "pptm"; "potm"; "ppsm"; "ppam"].

Definition GIT_ATTRIBUTES : list string :=
  (λ file_ext, "*." +:+ file_ext +:+ " diff=xltrail") <$> FILE_EXTENSIONS.

Definition GIT_IGNORE : list string :=
  (λ file_ext, "~$*." +:+ file_ext) <$> FILE_EXTENSIONS.

(** ** The key-file synchroniser *)

(** The [operation] argument; the [assert] of the source rejects any other
    value. *)
Inductive operation : Type := SET | REMOVE.

(** [[line for line in f.read().split('\n') if line]] when the file
    exists, [[]] otherwise *)
Definition read_content (path : string) (fs : filesystem) : list string :=
  match files fs !! path with
  | Some bytes =>
      filter (λ line, line ≠ EmptyString) (Py.split Py.LF (newline_decode bytes))
  | None => []
  end.

(** [sorted(list(set(content).union(set(keys))))] *)
Definition sorted_union (content keys : list string) : list string :=
  Py.sorted (elements ((list_to_set content : gset string) ∪ list_to_set keys)).

(** ['\n'.join(content)] *)
Definition join_lines (content : list string) : string :=
  Py.join (String Py.LF EmptyString) content.

Definition update_git_file (path : string) (keys : list string)
    (op : operation) (fs : filesystem) : list string * filesystem :=
  let content := read_content path fs in
  let content :=
    match op with
    | SET => sorted_union content keys
    | REMOVE =>
        filter (λ line, line ≠ EmptyString ∧ line ∉ keys) content
    end in
  match content with
  | [] => (content, fs)
  | _ :: _ => (content, write_text path (join_lines content) fs)
  end.

Definition delete_git_file (path : string) (fs : filesystem) : filesystem :=
  if os_path_exists path fs then os_remove path fs else fs.

(** The removal of a ruleset as [uninstall] performs it on the attributes
    file (lines 83 to 89, the call to git apart): [update_git_file] with
    [REMOVE], and then [delete_git_file] when no entry is left. *)
Definition Remove (path : string) (keys : list string) (fs : filesystem)
    : list string * filesystem :=
  let '(content, fs) := update_git_file path keys REMOVE fs in
  match content with
  | [] => (content, delete_git_file path fs)
  | _ :: _ => (content, fs)
  end.

(** ** The installer *)

(** The exceptions the constructor can end in. *)
Inductive exn : Type :=
  | ValueError (msg : string)
  | TypeError.

Record Installer : Type := MkInstaller {
  mode : string;
  path : option string;
  git_global_config_dir : option string;
  git_attributes_path : string;
  git_ignore_path : string
}.

(** first element of [s.split('\n')], which is never empty *)
Definition first_line (s : string) : string :=
  hd EmptyString (Py.split Py.LF s).

Section Process.

(** The outside world that git reads and writes (its configuration
    stores and repositories), disjoint from the two key files. *)
Context {World : Type}.

(** [subprocess.run(command, cwd=cwd, ...)]: captured [(stdout, stderr)] *)
Variable subprocess_run :
  list string → option string → World → (string * string) * World.

(** [os.path.join] *)
Variable os_path_join : string → string → string.

Definition is_git_repository (path : option string) (w : World) : bool * World :=
  let '((_, stderr), w) := subprocess_run ["git"; "rev-parse"] path w in
  (String.eqb (first_line stderr) EmptyString, w).

Definition execute (mode : string) (path : option string)
    (args : list string) (w : World) : string * World :=
  let command := ["git"; "config"] in
  let command :=
    if String.eqb mode "global" then command ++ ["--global"] else command in
  let command := command ++ args in
  let '((stdout, _), w) := subprocess_run command path w in
  (stdout, w).

Definition get_global_gitconfig_dir (mode : string) (path : option string)
    (w : World) : (exn + string) * World :=
  let '(f, w) := execute mode path ["--list"; "--show-origin"] w in
  let '(p, w) := execute mode path ["--list"] w in
  let f := first_line f in
  let p := first_line p in
  match Py.index f p with
  | Some i => (inr (Py.drop_last 11 (Py.drop 5 (Py.take i f))), w)
  | None => (inl (ValueError "substring not found"), w)
  end.

(** [get_git_attributes_path] and [get_git_ignore_path] differ only in
    the file name and the configuration key they look at. *)
Definition get_git_file_path (file_name config_key : string)
    (mode : string) (path : option string) (config_dir : option string)
    (w : World) : (exn + string) * World :=
  if String.eqb mode "local" then
    match path with
    | Some repo => (inr (os_path_join repo file_name), w)
    | None => (inl TypeError, w)
    end
  else
    let '(out, w) := execute mode path ["--get"; config_key] w in
    let configured := first_line out in
    if negb (String.eqb configured EmptyString) then (inr configured, w)
    else match config_dir with
         | Some dir => (inr (os_path_join dir file_name), w)
         | None => (inl TypeError, w)
         end.

Definition get_git_attributes_path :=
  get_git_file_path ".gitattributes" "core.attributesfile".

Definition get_git_ignore_path :=
  get_git_file_path ".gitignore" "core.excludesfile".

(** [Installer.__init__(mode, path)] *)
Definition Installer_init (mode : string) (path : option string)
    (w : World) : (exn + Installer) * World :=
  if String.eqb mode "global" && Py.truthy path then
    (inl (ValueError "must not specify repository path when installing globally"), w)
  else if String.eqb mode "local" && negb (Py.truthy path) then
    (inl (ValueError "must specify repository path when installing locally"), w)
  else
    let '(not_a_repository, w) :=
      if String.eqb mode "local" then
        let '(is_repo, w) := is_git_repository path w in (negb is_repo, w)
      else (false, w) in
    if not_a_repository then (inl (ValueError "not a Git repository"), w)
    else
      let '(config_dir, w) :=
        if String.eqb mode "global" then
          let '(r, w) := get_global_gitconfig_dir mode path w in
          (match r with inr dir => inr (Some dir) | inl e => inl e end, w)
        else (inr None, w) in
      match config_dir with
      | inl e => (inl e, w)
      | inr config_dir =>
          let '(attributes, w) := get_git_attributes_path mode path config_dir w in
          match attributes with
          | inl e => (inl e, w)
          | inr attributes_path =>
              let '(ignore, w) := get_git_ignore_path mode path config_dir w in
              match ignore with
              | inl e => (inl e, w)
              | inr ignore_path =>
                  (inr (MkInstaller mode path config_dir attributes_path ignore_path), w)
              end
          end
      end.

Definition execute_ (self : Installer) (args : list string) (w : World)
    : string * World :=
  execute (mode self) (path self) args w.

(** [Installer.install] *)
Definition install (self : Installer) (st : World * filesystem)
    : World * filesystem :=
  let '(w, fs) := st in
  (* 1. gitconfig: set-up diff.xltrail.command *)
  let '(_, w) := execute_ self ["diff.xltrail.command"; GIT_XLTRAIL_DIFF] w in
  (* 2. set-up gitattributes *)
  let '(_, fs) := update_git_file (git_attributes_path self) GIT_ATTRIBUTES SET fs in
  (* 3. set-up gitignore *)
  let '(_, fs) := update_git_file (git_ignore_path self) GIT_IGNORE SET fs in
  (* when in global mode, update gitconfig *)
  if String.eqb (mode self) "global" then
    let '(_, w) := execute_ self ["core.attributesfile"; git_attributes_path self] w in
    let '(_, w) := execute_ self ["core.excludesfile"; git_ignore_path self] w in
    (w, fs)
  else (w, fs).

(** step 1 of [uninstall]: remove [diff.xltrail.command] from gitconfig *)
Definition uninstall_gitconfig (self : Installer) (w : World) : World :=
  let '(out, w) := execute_ self ["--list"] w in
  let keys := Py.split Py.LF out in
  match filter (λ key, String.prefix "diff.xltrail.command" key = true) keys with
  | [] => w
  | _ :: _ => (execute_ self ["--remove-section"; "diff.xltrail"] w).2
  end.

(** step 2 of [uninstall]: remove the attribute keys *)
Definition uninstall_gitattributes (self : Installer)
    (st : World * filesystem) : World * filesystem :=
  let '(w, fs) := st in
  let '(gitattributes_keys, fs) :=
    update_git_file (git_attributes_path self) GIT_ATTRIBUTES REMOVE fs in
  match gitattributes_keys with
  | [] =>
      let w :=
        if String.eqb (mode self) "global"
        then (execute_ self ["--unset"; "core.attributesfile"] w).2 else w in
      (w, delete_git_file (git_attributes_path self) fs)
  | _ :: _ => (w, fs)
  end.

(** the value of the local variable [gitignore_keys] in step 3; the
    source passes [self.git_attributes_path] here too *)
Definition gitignore_keys (self : Installer) (fs : filesystem)
    : list string * filesystem :=
  update_git_file (git_attributes_path self) GIT_IGNORE REMOVE fs.

(** step 3 of [uninstall]: remove the ignore keys *)
Definition uninstall_gitignore (self : Installer)
    (st : World * filesystem) : World * filesystem :=
  let '(w, fs) := st in
  let '(keys, fs) := gitignore_keys self fs in
  match keys with
  | [] =>
      let w :=
        if String.eqb (mode self) "global"
        then (execute_ self ["--unset"; "core.excludesfile"] w).2 else w in
      (w, delete_git_file (git_ignore_path self) fs)
  | _ :: _ => (w, fs)
  end.

(** [Installer.uninstall] *)
Definition uninstall (self : Installer) (st : World * filesystem)
    : World * filesystem :=
  let '(w, fs) := st in
  let w := uninstall_gitconfig self w in
  let st := uninstall_gitattributes self (w, fs) in
  uninstall_gitignore self st.

End Process.

(** ** The command line

    [CommandParser.install] and [CommandParser.uninstall].  The state is
    the outside world, the file system and the lines printed so far;
    [cwd] is what [os.getcwd()] returns. *)

Definition dquote : string := String "034"%char EmptyString.

(** the text both commands print for an option they do not know; both name
    the [install] command *)
Definition invalid_option_message (option : string) : string :=
  "Invalid option " +:+ dquote +:+ option +:+ dquote +:+ " for " +:+ dquote
  +:+ "git-xltrail install" +:+ dquote +:+ String Py.LF EmptyString
  +:+ "Run 'git-xltrail --help' for usage.".

Section CommandLine.

Context {World : Type}.
Variable subprocess_run :
  list string → option string → World → (string * string) * World.
Variable os_path_join : string → string → string.
Variable cwd : string.

(** the installer the two commands build from their arguments: [None] when
    the first argument is not [--local] *)
Definition CommandParser_installer (args : list string) (w : World)
    : option ((exn + Installer) * World) :=
  match args with
  | option :: _ =>
      if String.eqb option "--local"
      then Some (Installer_init subprocess_run os_path_join "local" (Some cwd) w)
      else None
  | [] => Some (Installer_init subprocess_run os_path_join "global" None w)
  end.

(** [CommandParser.install] with its arguments: the exception raised, if
    any, and the state afterwards *)
Definition CommandParser_install (args : list string)
    (st : World * filesystem * list string)
    : option exn * (World * filesystem * list string) :=
  let '(w, fs, printed) := st in
  match CommandParser_installer args w with
  | None =>
      (None, (w, fs, printed ++ [invalid_option_message (hd EmptyString args)]))
  | Some (inl e, w) => (Some e, (w, fs, printed))
  | Some (inr installer, w) =>
      let '(w, fs) := install subprocess_run installer (w, fs) in
      (None, (w, fs, printed))
  end.

(** [CommandParser.uninstall] with its arguments *)
Definition CommandParser_uninstall (args : list string)
    (st : World * filesystem * list string)
    : option exn * (World * filesystem * list string) :=
  let '(w, fs, printed) := st in
  match CommandParser_installer args w with
  | None =>
      (None, (w, fs, printed ++ [invalid_option_message (hd EmptyString args)]))
  | Some (inl e, w) => (Some e, (w, fs, printed))
  | Some (inr installer, w) =>
      let '(w, fs) := uninstall subprocess_run installer (w, fs) in
      (None, (w, fs, printed))
  end.

End CommandLine.

(** ** The add-in installer: [AddinInstaller.create_open_key]

    The registry values that load an add-in are named [OPEN], [OPEN1],
    [OPEN2], ...; [create_open_key] picks the name for a new one from the
    list of [(name, value)] pairs that are installed. *)

(** [s.replace(old, new)] for a non-empty [old]: the occurrences are found
    from the left and do not overlap; [skip] counts the characters of an
    occurrence still to pass over *)
Fixpoint str_replace_go (old new : string) (skip : nat) (s : string) : string :=
  match s with
  | EmptyString => EmptyString
  | String c s' =>
      match skip with
      | S skip' => str_replace_go old new skip' s'
      | O =>
          if String.prefix old s
          then new +:+ str_replace_go old new (String.length old - 1) s'
          else String c (str_replace_go old new 0 s')
      end
  end.

Definition str_replace (old new s : string) : string :=
  str_replace_go old new 0 s.

(** [str(i)] for a non-negative [int], as an f-string formats it *)
Definition digit_char (d : nat) : ascii := ascii_of_nat (48 + d).

Fixpoint str_of_nat_go (fuel n : nat) (acc : string) : string :=
  match fuel with
  | O => acc
  | S fuel' =>
      let acc := String (digit_char (n mod 10)) acc in
      if Nat.ltb n 10 then acc else str_of_nat_go fuel' (n / 10) acc
  end.

Definition str_of_nat (n : nat) : string := str_of_nat_go (S n) n EmptyString.

Section Addin.

(** the builtin [int] on a [str]: the number, or the exception raised *)
Variable py_int : string → exn + Z.

(** [j = n.replace('OPEN', ''); j = int(j) if j else 0] *)
Definition open_number (name : string) : exn + Z :=
  let j := str_replace "OPEN" EmptyString name in
  if String.eqb j EmptyString then inr 0%Z else py_int j.

(** the [for] loop over [enumerate(installed_open_keys)]: the value of [i]
    when the loop is left, by [break] or at the end; [last] is the index of
    the pair before this one *)
Fixpoint open_key_scan (i last : nat) (keys : list (string * string))
    : exn + nat :=
  match keys with
  | [] => inr last
  | (n, v) :: keys' =>
      match open_number n with
      | inl e => inl e
      | inr j =>
          if decide (Z.of_nat i ≠ j) then inr i
          else open_key_scan (S i) i keys'
      end
  end.

Definition create_open_key (installed_open_keys : list (string * string))
    : exn + string :=
  let name := "OPEN" in
  match installed_open_keys with
  | [] => inr name
  | first :: rest =>
      match open_key_scan 0 0 installed_open_keys with
      | inl e => inl e
      | inr i =>
          match open_number (List.last rest first).1 with
          | inl e => inl e
          | inr j =>
              let i :=
                if decide (i = length installed_open_keys - 1 ∧ j = Z.of_nat i)
                then S i else i in
              if decide (i ≠ 0) then inr (name +:+ str_of_nat i) else inr name
          end
      end
  end.

End Addin.

(** the name with number [k]: [OPEN] for zero *)
Definition open_name (k : nat) : string :=
  if decide (k = 0) then "OPEN" else "OPEN" +:+ str_of_nat k.

(** [numbers] are what [open_number] returns for the names of [keys] *)
Definition numbered (py_int : string → exn + Z)
    (keys : list (string * string)) (numbers : list Z) : Prop :=
  Forall2 (λ kv j, open_number py_int kv.1 = inr j) keys numbers.

(** the first position [i], counted from [start], whose number is not [i];
    the position after the last one when there is none *)
Fixpoint first_gap (start : nat) (numbers : list Z) : nat :=
  match numbers with
  | [] => start
  | j :: numbers' =>
      if decide (j = Z.of_nat start) then first_gap (S start) numbers'
      else start
  end.

(** ** Key entries

    The data model of the specification: a key entry is a single-line
    string token.  [single_line] excludes both line terminators that the
    text layer recognises; [key_entry] also excludes the empty string. *)

Fixpoint has_char (c : ascii) (s : string) : bool :=
  match s with
  | EmptyString => false
  | String d s' => Ascii.eqb d c || has_char c s'
  end.

Definition single_line (s : string) : Prop :=
  has_char Py.LF s = false ∧ has_char Py.CR s = false.

Definition key_entry (s : string) : Prop :=
  s ≠ EmptyString ∧ single_line s.

#[export] Instance single_line_dec s : Decision (single_line s).
Proof. unfold single_line. apply _. Defined.

#[export] Instance key_entry_dec s : Decision (key_entry s).
Proof. unfold key_entry. apply _. Defined.

(** the lines of the file at [path] as a reader sees them,
    [f.read().split('\n')], empty ones included *)
Definition file_lines (path : string) (fs : filesystem) : option (list string) :=
  (λ bytes, Py.split Py.LF (newline_decode bytes)) <$> files fs !! path.

(** [rewrites path e]: the call [e] opened [path] for writing *)
Definition rewrites (path : string) (e : fs_event) : Prop :=
  match e with
  | FsWrite p _ => p = path
  | FsRemove _ => False
  end.

(** [fs'] comes from [fs] by calls that all satisfy [P] *)
Definition extends_by (P : fs_event → Prop) (fs fs' : filesystem) : Prop :=
  ∃ events, syscalls fs' = syscalls fs ++ events ∧ Forall P events.

(** ** What git is expected to print

    [git config --list --show-origin] prefixes every line of
    [git config --list] with the file it comes from, so the first line of
    the one occurs in the first line of the other. *)
Definition origin_listing_consistent {World : Type}
    (subprocess_run : list string → option string → World → (string * string) * World)
    (mode : string) (path : option string) (w : World) : Prop :=
  let '(f, w) := execute subprocess_run mode path ["--list"; "--show-origin"] w in
  let '(p, _) := execute subprocess_run mode path ["--list"] w in
  ∃ origin rest, first_line f = origin +:+ first_line p +:+ rest.

(** [sub] occurs in [s] at position [j] *)
Definition occurs_at (sub s : string) (j : nat) : Prop :=
  String.substring j (String.length sub) s = sub.

(** [r] does not begin with a line feed *)
Definition no_leading_lf (r : string) : Prop :=
  match r with
  | EmptyString => True
  | String c _ => Ascii.eqb c Py.LF = false
  end.

(** the bytes of a file that holds the entries [l], each but the last
    followed by the line terminator [t], and the last one too when
    [trailing] is set *)
Fixpoint lines_with (t : string) (trailing : bool) (l : list string) : string :=
  match l with
  | [] => EmptyString
  | [e] => if trailing then e +:+ t else e
  | e :: l' => e +:+ t +:+ lines_with t trailing l'
  end.

(** ** Concrete file systems

    Small inputs on which the operations are evaluated below. *)

Definition crlf : string := String Py.CR (String Py.LF EmptyString).

(** no file at all *)
Definition fs_empty : filesystem := Filesystem ∅ [].

(** an unrelated file, and nothing at ["attrs"] *)
Definition fs_other : filesystem :=
  Filesystem {[ "notes.txt" := "hello" ]} [].

(** lines [b], [a], [c] in that order *)
Definition fs_bac : filesystem :=
  Filesystem {[ "keys" := "b" +:+ crlf +:+ "a" +:+ crlf +:+ "c" ]} [].

(** lines [zebra], [apple] *)
Definition fs_zebra : filesystem :=
  Filesystem {[ "keys" := "zebra" +:+ crlf +:+ "apple" +:+ crlf ]} [].

(** the single line [a] *)
Definition fs_a : filesystem := Filesystem {[ "keys" := "a" ]} [].

(** the line [a] twice *)
Definition fs_aa : filesystem :=
  Filesystem {[ "keys" := "a" +:+ crlf +:+ "a" ]} [].

(** ** Concrete outside worlds

    Stateless stand-ins for git, used to run the installer on examples. *)

Definition tab : string := String "009"%char EmptyString.

Definition slash : string := "/".
Definition backslash : string := String "092"%char EmptyString.

(** appends [name] to [dir] after a separator, unless [dir] already ends in
    one: what [os.path.join] does for the directories used below *)
Definition join_under (dir name : string) : string :=
  let last := Py.drop (String.length dir - 1) dir in
  if String.eqb last slash || String.eqb last backslash then dir +:+ name
  else dir +:+ backslash +:+ name.

(** a user whose global configuration holds one setting and names no
    attributes or excludes file; every directory is a repository *)
Definition git_plain (command : list string) (cwd : option string) (w : unit)
    : (string * string) * unit :=
  if decide (command = ["git"; "config"; "--global"; "--list"; "--show-origin"])
  then ("file:C:/Users/u/.gitconfig" +:+ tab +:+ "user.name=u", "", w)
  else if decide (command = ["git"; "config"; "--global"; "--list"])
  then ("user.name=u", "", w)
  else ("", "", w).

(** a Git older than 2.8, which the source says it does not support:
    [--show-origin] is not an option of [git config] there, so that call
    prints an error on stderr and nothing on stdout, while [--list] works *)
Definition git_old (command : list string) (cwd : option string) (w : unit)
    : (string * string) * unit :=
  if decide (command = ["git"; "config"; "--global"; "--list"; "--show-origin"])
  then ("", "error: unknown option show-origin", w)
  else if decide (command = ["git"; "config"; "--global"; "--list"])
  then ("user.name=u", "", w)
  else ("", "", w).

(** a user who has pointed [core.attributesfile] and [core.excludesfile] at
    one and the same file *)
Definition git_shared (command : list string) (cwd : option string) (w : unit)
    : (string * string) * unit :=
  if decide (command = ["git"; "config"; "--global"; "--get"; "core.attributesfile"])
  then ("C:/cfg/gitfiles", "", w)
  else if decide (command = ["git"; "config"; "--global"; "--get"; "core.excludesfile"])
  then ("C:/cfg/gitfiles", "", w)
  else ("", "", w).

(** the shared file holds a line of the user's own and one installed
    attribute *)
Definition fs_shared : filesystem :=
  Filesystem {[ "C:/cfg/gitfiles" := "*.txt text" +:+ crlf +:+ "*.xls diff=xltrail" ]} [].

(** the installer that [Installer_init] builds for [git_shared] *)
Definition self_shared : Installer :=
  MkInstaller "global" None (Some EmptyString) "C:/cfg/gitfiles" "C:/cfg/gitfiles".

(** the installer that [Installer_init] builds for [git_plain] *)
Definition self_plain : Installer :=
  MkInstaller "global" None (Some "C:/Users/u/")
    "C:/Users/u/.gitattributes" "C:/Users/u/.gitignore".

(** a user's own excludes file next to an attributes file that holds
    nothing but installed entries *)
Definition fs_own_ignore : filesystem :=
  Filesystem {[ "C:/Users/u/.gitattributes" := "*.xls diff=xltrail";
                "C:/Users/u/.gitignore" := "build/" +:+ crlf +:+ "~$*.xls" ]} [].

(** a git that keeps the global settings of one user in a list and answers
    the [git config --global] commands the installer issues *)
Definition git_store : Type := list (string * string).

Definition store_set (key value : string) (store : git_store) : git_store :=
  if decide (key ∈ store.*1)
  then (λ kv, if decide (kv.1 = key) then (key, value) else kv) <$> store
  else store ++ [(key, value)].

Definition store_get (key : string) (store : git_store) : string :=
  match list_find (λ kv, kv.1 = key) store with
  | Some (_, (_, value)) => value +:+ String Py.LF EmptyString
  | None => EmptyString
  end.

Definition store_list (origin : string) (store : git_store) : string :=
  foldr (λ kv rest, origin +:+ kv.1 +:+ "=" +:+ kv.2
                    +:+ String Py.LF EmptyString +:+ rest)
        EmptyString store.

Definition git_stateful (command : list string) (cwd : option string)
    (store : git_store) : (string * string) * git_store :=
  if decide (take 3 command = ["git"; "config"; "--global"]) then
    match drop 3 command with
    | [a] =>
        if decide (a = "--list") then (store_list EmptyString store, "", store)
        else ("", "", store)
    | [a; b] =>
        if decide (a = "--list") then
          (store_list ("file:C:/Users/u/.gitconfig" +:+ tab) store, "", store)
        else if decide (a = "--get") then (store_get b store, "", store)
        else if decide (a = "--unset") then
          ("", "", filter (λ kv, kv.1 ≠ b) store)
        else if decide (a = "--remove-section") then
          ("", "", filter (λ kv, String.prefix (b +:+ ".") kv.1 = false) store)
        else ("", "", store_set a b store)
    | _ => ("", "", store)
    end
  else ("", "", store).

(** the settings of a user before the first install *)
Definition store_fresh : git_store := [("user.name", "u")].

(** a stand-in for [int] on strings of decimal digits, to run
    [create_open_key] on examples; anything else is a [ValueError] *)
Fixpoint int_of_digits_go (acc : Z) (s : string) : exn + Z :=
  match s with
  | EmptyString => inr acc
  | String c s' =>
      let d := nat_of_ascii c in
      if Nat.leb 48 d && Nat.leb d 57
      then int_of_digits_go (10 * acc + Z.of_nat (d - 48))%Z s'
      else inl (ValueError "invalid literal for int() with base 10")
  end.

Definition int_of_digits (s : string) : exn + Z :=
  match s with
  | EmptyString => inl (ValueError "invalid literal for int() with base 10")
  | _ => int_of_digits_go 0%Z s
  end.

(** * Properties *)

(** ** The order on strings *)

Section StringOrder.

Lemma ascii_compare_refl c : Ascii.compare c c = Eq.
Proof. unfold Ascii.compare. apply N.compare_refl. Qed.

Lemma ascii_compare_Lt_trans a b c :
  Ascii.compare a b = Lt → Ascii.compare b c = Lt → Ascii.compare a c = Lt.
Proof.
  unfold Ascii.compare. rewrite !N.compare_lt_iff. apply N.lt_trans.
Qed.

Lemma string_compare_refl s : String.compare s s = Eq.
Proof.
  induction s as [|c s IH]; simpl; [done|]. by rewrite ascii_compare_refl.
Qed.

Lemma string_compare_Lt_trans s1 s2 s3 :
  String.compare s1 s2 = Lt → String.compare s2 s3 = Lt →
  String.compare s1 s3 = Lt.
Proof.
  revert s2 s3. induction s1 as [|a s1 IH]; intros [|b s2] [|c s3]; simpl;
    try done.
  destruct (Ascii.compare a b) eqn:Hab; try done;
    destruct (Ascii.compare b c) eqn:Hbc; try done; intros H12 H23.
  - apply Ascii.compare_eq_iff in Hab, Hbc. subst.
    rewrite ascii_compare_refl. eauto.
  - apply Ascii.compare_eq_iff in Hab. subst. by rewrite Hbc.
  - apply Ascii.compare_eq_iff in Hbc. subst. by rewrite Hab.
  - by rewrite (ascii_compare_Lt_trans a b c).
Qed.

#[export] Instance le_total : Total Py.le.
Proof. intros a b. apply String.leb_total. Qed.

#[export] Instance le_antisymm : AntiSymm (=) Py.le.
Proof. intros a b. apply String.leb_antisym. Qed.

Lemma le_iff a b : Py.le a b ↔ a = b ∨ String.compare a b = Lt.
Proof.
  unfold Py.le, String.leb. split.
  - destruct (String.compare a b) eqn:Hc; try done.
    + left. by apply String.compare_eq_iff.
    + by right.
  - intros [->| ->]; [|done]. by rewrite string_compare_refl.
Qed.

#[export] Instance le_trans : Transitive Py.le.
Proof.
  intros a b c. rewrite !le_iff. intros [->|Hab] [->|Hbc]; eauto.
  right. by eapply string_compare_Lt_trans.
Qed.

#[export] Instance le_refl : Reflexive Py.le.
Proof. intros a. apply le_iff. by left. Qed.

Lemma sorted_Permutation l : Py.sorted l ≡ₚ l.
Proof. apply merge_sort_Permutation. Qed.

Lemma sorted_Sorted l : StronglySorted Py.le (Py.sorted l).
Proof. apply StronglySorted_merge_sort; apply _. Qed.

Lemma elem_of_sorted x l : x ∈ Py.sorted l ↔ x ∈ l.
Proof. by rewrite sorted_Permutation. Qed.

Lemma sorted_nil_inv l : Py.sorted l = [] → l = [].
Proof.
  intros H. apply Permutation_nil_r. rewrite <- H.
  symmetry. apply sorted_Permutation.
Qed.

End StringOrder.

(** ** Splitting, joining and the text layer *)

Section Text.

Implicit Types (c sep : ascii) (s text bytes : string) (l : list string).

Lemma has_char_app c s1 s2 :
  has_char c (s1 +:+ s2) = has_char c s1 || has_char c s2.
Proof.
  induction s1 as [|d s1 IH]; [done|].
  change (String d s1 +:+ s2) with (String d (s1 +:+ s2)). simpl.
  rewrite IH. by rewrite orb_assoc.
Qed.

Lemma split_not_nil sep s : Py.split sep s ≠ [].
Proof.
  induction s as [|c s IH]; simpl; [done|].
  destruct (Ascii.eqb c sep); [done|]. by destruct (Py.split sep s).
Qed.

Lemma split_no_sep sep s : has_char sep s = false → Py.split sep s = [s].
Proof.
  induction s as [|c s IH]; simpl; [done|].
  intros [Hc Hs]%orb_false_elim. rewrite Hc. by rewrite (IH Hs).
Qed.

Lemma split_app sep s rest :
  has_char sep s = false →
  Py.split sep (s +:+ String sep rest) = s :: Py.split sep rest.
Proof.
  induction s as [|c s IH]; intros Hs.
  - change (EmptyString +:+ String sep rest) with (String sep rest).
    simpl. by rewrite Ascii.eqb_refl.
  - change (String c s +:+ String sep rest)
      with (String c (s +:+ String sep rest)).
    simpl in *. apply orb_false_elim in Hs as [Hc Hs].
    rewrite Hc. by rewrite (IH Hs).
Qed.

Lemma split_fields sep s :
  Forall (λ field, has_char sep field = false) (Py.split sep s).
Proof.
  induction s as [|c s IH]; simpl.
  - by repeat constructor.
  - destruct (Ascii.eqb c sep) eqn:Hc; [by constructor|].
    destruct IH as [|field fields Hf Hfs]; repeat constructor; simpl;
      rewrite ?Hc; done.
Qed.

Lemma split_preserves c sep s :
  has_char c s = false →
  Forall (λ field, has_char c field = false) (Py.split sep s).
Proof.
  induction s as [|d s IH]; simpl.
  - by repeat constructor.
  - intros [Hd Hs]%orb_false_elim. specialize (IH Hs).
    destruct (Ascii.eqb d sep); [by constructor|].
    destruct IH as [|field fields Hf Hfs]; repeat constructor; simpl;
      rewrite ?Hd; done.
Qed.

Lemma split_join l :
  Forall (λ field, has_char Py.LF field = false) l → l ≠ [] →
  Py.split Py.LF (Py.join (String Py.LF EmptyString) l) = l.
Proof.
  induction 1 as [|x l Hx Hl IH]; [done|]. intros _.
  destruct l as [|y l].
  - simpl. by apply split_no_sep.
  - change (Py.join (String Py.LF EmptyString) (x :: y :: l))
      with (x +:+ String Py.LF (Py.join (String Py.LF EmptyString) (y :: l))).
    rewrite split_app by done. by rewrite IH.
Qed.

Lemma has_char_join c l :
  c ≠ Py.LF → Forall (λ field, has_char c field = false) l →
  has_char c (Py.join (String Py.LF EmptyString) l) = false.
Proof.
  intros Hc. induction 1 as [|x l Hx Hl IH]; [done|].
  destruct l as [|y l]; [done|].
  change (Py.join (String Py.LF EmptyString) (x :: y :: l))
    with (x +:+ String Py.LF (Py.join (String Py.LF EmptyString) (y :: l))).
  rewrite has_char_app, Hx. cbn [has_char orb]. rewrite IH.
  destruct (Ascii.eqb_spec Py.LF c); by subst.
Qed.

Lemma decode_encode text :
  has_char Py.CR text = false → newline_decode (newline_encode text) = text.
Proof.
  induction text as [|c text IH]; [done|]. simpl.
  intros [Hc Ht]%orb_false_elim. specialize (IH Ht).
  destruct (Ascii.eqb_spec c Py.LF) as [->|Hlf].
  - simpl. by rewrite IH.
  - simpl. rewrite Hc. by rewrite IH.
Qed.

Lemma decode_no_cr bytes : has_char Py.CR (newline_decode bytes) = false.
Proof.
  assert (∀ n bytes, String.length bytes < n →
            has_char Py.CR (newline_decode bytes) = false) as Hn.
  { clear bytes. induction n as [|n IH]; intros bytes Hlen; [lia|].
    destruct bytes as [|c bytes]; [done|].
    cbn [newline_decode]. cbn [String.length] in Hlen.
    destruct (Ascii.eqb c Py.CR) eqn:Hc.
    - destruct bytes as [|d bytes]; [done|]. cbn [String.length] in Hlen.
      destruct (Ascii.eqb d Py.LF);
        change (has_char Py.CR (String Py.LF ?r)) with (has_char Py.CR r);
        apply IH; cbn [String.length]; lia.
    - cbn [has_char]. rewrite Hc. apply IH. lia. }
  apply (Hn (S (String.length bytes))). lia.
Qed.

End Text.

(** ** Reading and writing a key file *)

Section KeyFile.

Implicit Types (p q path : string) (fs : filesystem).
Implicit Types (keys content l : list string).

Lemma read_content_absent p fs :
  files fs !! p = None → read_content p fs = [].
Proof. unfold read_content. by intros ->. Qed.

Lemma read_content_key_entry p fs : Forall key_entry (read_content p fs).
Proof.
  unfold read_content. destruct (files fs !! p) as [bytes|]; [|constructor].
  apply Forall_forall. intros line [Hne Hin]%list_elem_of_filter.
  split; [done|]. split.
  - exact (proj1 (Forall_forall _ _) (split_fields _ _) _ Hin).
  - refine (proj1 (Forall_forall _ _) (split_preserves _ _ _ _) _ Hin).
    apply decode_no_cr.
Qed.

Lemma read_content_write p l fs :
  Forall single_line l → l ≠ [] →
  read_content p (write_text p (join_lines l) fs)
  = filter (λ line, line ≠ EmptyString) l.
Proof.
  intros Hl Hne. unfold read_content, write_text. simpl.
  rewrite lookup_insert_eq. rewrite decode_encode.
  - unfold join_lines. rewrite split_join; [done| |done].
    eapply Forall_impl; [exact Hl|]. by intros x [? ?].
  - apply has_char_join; [done|].
    eapply Forall_impl; [exact Hl|]. by intros x [? ?].
Qed.

Lemma filter_key_entry l :
  Forall key_entry l → filter (λ line, line ≠ EmptyString) l = l.
Proof.
  induction 1 as [|x l [Hx _] _ IH]; [done|].
  rewrite filter_cons_True by done. by rewrite IH.
Qed.

Lemma read_content_write_key_entries p l fs :
  Forall key_entry l → l ≠ [] →
  read_content p (write_text p (join_lines l) fs) = l.
Proof.
  intros Hl Hne. rewrite read_content_write; [|
    eapply Forall_impl; [exact Hl|by intros ? [? ?]] |done].
  by apply filter_key_entry.
Qed.

Lemma read_content_write_ne p q text fs :
  p ≠ q → read_content p (write_text q text fs) = read_content p fs.
Proof.
  intros Hpq. unfold read_content, write_text. simpl.
  by rewrite lookup_insert_ne.
Qed.

Lemma files_delete_git_file p q fs :
  files (delete_git_file p fs) !! q
  = if decide (p = q) then None else files fs !! q.
Proof.
  unfold delete_git_file, os_path_exists. case_bool_decide as Hex; simpl.
  - rewrite lookup_delete. by repeat case_decide.
  - case_decide as Hpq; [subst|done].
    by apply eq_None_not_Some.
Qed.

Lemma delete_git_file_absent p fs :
  files fs !! p = None → delete_git_file p fs = fs.
Proof.
  intros Hp. unfold delete_git_file, os_path_exists.
  rewrite bool_decide_eq_false_2; [done|]. rewrite Hp. by intros [? ?].
Qed.

Lemma read_content_delete_ne p q fs :
  p ≠ q → read_content p (delete_git_file q fs) = read_content p fs.
Proof.
  intros Hpq. unfold read_content. rewrite files_delete_git_file.
  by rewrite decide_False.
Qed.

Lemma read_content_delete p fs : read_content p (delete_git_file p fs) = [].
Proof.
  apply read_content_absent. rewrite files_delete_git_file.
  by rewrite decide_True.
Qed.

(** *** The sorted union *)

Lemma elem_of_sorted_union x content keys :
  x ∈ sorted_union content keys ↔ x ∈ content ∨ x ∈ keys.
Proof.
  unfold sorted_union. rewrite elem_of_sorted, elem_of_elements.
  by rewrite elem_of_union, !elem_of_list_to_set.
Qed.

Lemma sorted_union_NoDup content keys : NoDup (sorted_union content keys).
Proof.
  unfold sorted_union. rewrite sorted_Permutation. apply NoDup_elements.
Qed.

Lemma sorted_union_Sorted content keys :
  StronglySorted Py.le (sorted_union content keys).
Proof. apply sorted_Sorted. Qed.

Lemma sorted_union_ext content keys content' keys' :
  (∀ x, x ∈ content ∨ x ∈ keys ↔ x ∈ content' ∨ x ∈ keys') →
  sorted_union content keys = sorted_union content' keys'.
Proof.
  intros Hext. unfold sorted_union. do 2 f_equal.
  apply set_eq. intros x. rewrite !elem_of_union, !elem_of_list_to_set.
  apply Hext.
Qed.

Lemma sorted_union_nil_inv content keys :
  sorted_union content keys = [] → content = [] ∧ keys = [].
Proof.
  intros Hnil.
  assert (∀ x, ¬ (x ∈ content ∨ x ∈ keys)) as Hno.
  { intros x Hx. apply elem_of_sorted_union in Hx. rewrite Hnil in Hx.
    by apply not_elem_of_nil in Hx. }
  split.
  - destruct content as [|x ?]; [done|]. destruct (Hno x). left. left.
  - destruct keys as [|x ?]; [done|]. destruct (Hno x). right. left.
Qed.

(** any strictly sorted list with the same members is the sorted union *)
Lemma sorted_union_unique content keys l :
  StronglySorted Py.le l → NoDup l →
  (∀ x, x ∈ l ↔ x ∈ content ∨ x ∈ keys) →
  l = sorted_union content keys.
Proof.
  intros Hs Hnd Hl. apply (StronglySorted_unique Py.le); [done| |].
  - apply sorted_union_Sorted.
  - apply NoDup_Permutation; [done|apply sorted_union_NoDup|].
    intros x. by rewrite Hl, elem_of_sorted_union.
Qed.

Lemma sorted_union_single_line content keys :
  Forall single_line content → Forall single_line keys →
  Forall single_line (sorted_union content keys).
Proof.
  rewrite !Forall_forall. intros Hc Hk x [?|?]%elem_of_sorted_union; eauto.
Qed.

(** *** The two operations, unfolded *)

Lemma update_git_file_SET path keys fs :
  update_git_file path keys SET fs
  = let content := sorted_union (read_content path fs) keys in
    (content,
     if decide (content = []) then fs
     else write_text path (join_lines content) fs).
Proof.
  unfold update_git_file. simpl.
  by destruct (sorted_union (read_content path fs) keys).
Qed.

Lemma update_git_file_REMOVE path keys fs :
  update_git_file path keys REMOVE fs
  = let content := filter (λ line, line ∉ keys) (read_content path fs) in
    (content,
     if decide (content = []) then fs
     else write_text path (join_lines content) fs).
Proof.
  unfold update_git_file.
  assert (filter (λ line, line ≠ EmptyString ∧ line ∉ keys) (read_content path fs)
          = filter (λ line, line ∉ keys) (read_content path fs)) as ->.
  { pose proof (read_content_key_entry path fs) as Hk.
    induction Hk as [|x l [Hx _] _ IH]; [done|].
    rewrite !filter_cons. rewrite IH.
    destruct (decide (x ∉ keys)).
    - by rewrite decide_True.
    - rewrite decide_False; [done|]. by intros [_ ?]. }
  simpl. by destruct (filter _ _).
Qed.

End KeyFile.

(** ** The claims about [update_git_file] *)

Section Synchroniser.

Implicit Types (path : string) (fs : filesystem) (keys : list string).

Lemma file_lines_write path l fs :
  Forall single_line l → l ≠ [] →
  file_lines path (write_text path (join_lines l) fs) = Some l.
Proof.
  intros Hl Hne. unfold file_lines, write_text. simpl.
  rewrite lookup_insert_eq. simpl. f_equal. rewrite decode_encode.
  - apply split_join; [|done].
    eapply Forall_impl; [exact Hl|]. by intros x [? ?].
  - apply has_char_join; [done|].
    eapply Forall_impl; [exact Hl|]. by intros x [? ?].
Qed.

Lemma read_content_file_lines path fs :
  read_content path fs
  = from_option (filter (λ line, line ≠ EmptyString)) [] (file_lines path fs).
Proof. unfold read_content, file_lines. by destruct (files fs !! path). Qed.

Lemma elem_of_read_content x path fs :
  x ∈ read_content path fs
  ↔ x ≠ EmptyString ∧ ∃ lines, file_lines path fs = Some lines ∧ x ∈ lines.
Proof.
  rewrite read_content_file_lines.
  destruct (file_lines path fs) as [lines|]; simpl.
  - rewrite list_elem_of_filter. split.
    + intros [? ?]. split; [done|]. by exists lines.
    + intros [? (? & [= <-] & ?)]. by split.
  - split; [by intros ?%not_elem_of_nil|]. by intros [_ (? & ? & _)].
Qed.

End Synchroniser.

(** C8: on a path where no file exists, [update_git_file] with [REMOVE]
    returns the empty list and leaves the file system untouched: the map of
    files is the same and no write or removal is logged. *)
Theorem remove_on_missing_file (path : string) (keys : list string)
    (fs : filesystem) :
  os_path_exists path fs = false →
  update_git_file path keys REMOVE fs = ([], fs).
Proof.
  intros Hex. rewrite update_git_file_REMOVE.
  rewrite read_content_absent; [done|].
  unfold os_path_exists in Hex. apply bool_decide_eq_false in Hex.
  by apply eq_None_not_Some.
Qed.

Lemma remove_on_missing_file_witness :
  os_path_exists "attrs" fs_other = false
  ∧ update_git_file "attrs" GIT_ATTRIBUTES REMOVE fs_other = ([], fs_other).
Proof.
  split; [vm_compute; reflexivity|].
  apply (remove_on_missing_file "attrs" GIT_ATTRIBUTES fs_other).
  vm_compute; reflexivity.
Defined.

(** C3: with a non-empty set of required entries, [update_git_file] with
    [SET] takes the non-empty lines of the file (none when the file does
    not exist), returns the sorted, duplicate-free list whose members are
    those lines and the required entries, and writes that list to the file
    joined by ['\n'], without a separator after the last entry; for
    single-line entries the lines of the file are then exactly the entries
    returned. *)
Theorem apply_writes_sorted_union (path : string) (keys : list string)
    (fs : filesystem) :
  keys ≠ [] →
  ∃ content,
    update_git_file path keys SET fs
      = (content, write_text path (join_lines content) fs)
    ∧ StronglySorted Py.le content
    ∧ NoDup content
    ∧ (∀ x, x ∈ content ↔
            (x ≠ EmptyString
             ∧ ∃ lines, file_lines path fs = Some lines ∧ x ∈ lines)
            ∨ x ∈ keys)
    ∧ files (write_text path (join_lines content) fs) !! path
        = Some (newline_encode (join_lines content))
    ∧ (Forall single_line keys →
       file_lines path (write_text path (join_lines content) fs) = Some content).
Proof.
  intros Hkeys. exists (sorted_union (read_content path fs) keys).
  assert (sorted_union (read_content path fs) keys ≠ []) as Hne.
  { by intros [_ ?]%sorted_union_nil_inv. }
  split; [|split; [|split; [|split; [|split]]]].
  - rewrite update_git_file_SET. simpl. by rewrite decide_False.
  - apply sorted_union_Sorted.
  - apply sorted_union_NoDup.
  - intros x. by rewrite elem_of_sorted_union, elem_of_read_content.
  - simpl. apply lookup_insert_eq.
  - intros Hsl. apply file_lines_write; [|done].
    apply sorted_union_single_line; [|done].
    eapply Forall_impl; [apply read_content_key_entry|]. by intros ? [_ ?].
Qed.

Lemma apply_writes_sorted_union_witness :
  ∃ content,
    update_git_file "keys" ["mango"] SET fs_zebra
      = (content, write_text "keys" (join_lines content) fs_zebra)
    ∧ content = ["apple"; "mango"; "zebra"].
Proof.
  destruct (apply_writes_sorted_union "keys" ["mango"] fs_zebra)
    as (content & Hupd & _); [done|].
  exists content. split; [exact Hupd|].
  apply (f_equal fst) in Hupd. simpl in Hupd. rewrite <- Hupd.
  vm_compute. reflexivity.
Defined.

(** [SET] of [x] and [y] on a path without a file creates the file with
    exactly these two lines. *)
Example apply_on_no_file :
  let result := update_git_file "keys" ["y"; "x"] SET fs_other in
  result.1 = ["x"; "y"]
  ∧ file_lines "keys" result.2 = Some ["x"; "y"]
  ∧ files result.2 !! "keys" = Some ("x" +:+ crlf +:+ "y").
Proof. vm_compute. done. Qed.

(** C4: [update_git_file] with [REMOVE] returns the non-empty lines of the
    file with the members of [keys] filtered out, in their original order
    and not re-sorted; the witness is the file with lines [b], [a], [c]
    and the entry [b] to remove, which gives [a], [c]. *)
Theorem remove_filters_in_order (path : string) (keys lines : list string)
    (fs : filesystem) :
  file_lines path fs = Some lines →
  let existing := filter (λ line, line ≠ EmptyString) lines in
  let result := (update_git_file path keys REMOVE fs).1 in
  result = filter (λ line, line ∉ keys) existing
  ∧ sublist result existing
  ∧ (∀ x, x ∈ result ↔ x ∈ existing ∧ x ∉ keys).
Proof.
  intros Hlines existing result.
  assert (result = filter (λ line, line ∉ keys) existing) as ->.
  { unfold result, existing. rewrite update_git_file_REMOVE. simpl.
    rewrite read_content_file_lines. by rewrite Hlines. }
  split; [done|]. split.
  - apply sublist_filter.
  - intros x. rewrite list_elem_of_filter. by split; intros [? ?].
Qed.

Lemma remove_filters_in_order_witness :
  file_lines "keys" fs_bac = Some ["b"; "a"; "c"]
  ∧ (update_git_file "keys" ["b"] REMOVE fs_bac).1 = ["a"; "c"].
Proof.
  assert (file_lines "keys" fs_bac = Some ["b"; "a"; "c"]) as Hlines.
  { vm_compute. reflexivity. }
  split; [exact Hlines|].
  destruct (remove_filters_in_order "keys" ["b"] _ fs_bac Hlines) as [Heq _].
  rewrite Heq. vm_compute. reflexivity.
Defined.

(** C7: for a ruleset of single-line entries, applying it twice in
    succession returns the same entries and leaves the same file contents
    as applying it once. *)
Theorem apply_idempotent (path : string) (keys : list string)
    (fs : filesystem) :
  Forall single_line keys →
  let once := update_git_file path keys SET fs in
  let twice := update_git_file path keys SET once.2 in
  twice.1 = once.1 ∧ files twice.2 = files once.2.
Proof.
  intros Hkeys once twice. unfold twice, once.
  rewrite (update_git_file_SET path keys fs). simpl.
  set (content := sorted_union (read_content path fs) keys).
  destruct (decide (content = [])) as [Hnil|Hne].
  - rewrite update_git_file_SET. simpl. fold content.
    rewrite Hnil. by rewrite decide_True.
  - assert (Forall single_line content) as Hsl.
    { apply sorted_union_single_line; [|done].
      eapply Forall_impl; [apply read_content_key_entry|]. by intros ? [_ ?]. }
    rewrite update_git_file_SET. simpl.
    rewrite read_content_write by done.
    assert (sorted_union (filter (λ line, line ≠ EmptyString) content) keys
            = content) as ->.
    { apply sorted_union_ext. intros x.
      rewrite list_elem_of_filter. unfold content.
      rewrite elem_of_sorted_union.
      pose proof (read_content_key_entry path fs) as Hrc.
      rewrite Forall_forall in Hrc.
      split; [by intros [[_ ?]|?]; [|right]|].
      intros [Hx|Hx]; [|by right]. left. split; [|by left].
      by destruct (Hrc x Hx). }
    split; [done|]. rewrite decide_False by done. simpl.
    apply insert_insert_eq.
Qed.

Lemma apply_idempotent_witness :
  Forall single_line GIT_IGNORE
  ∧ (update_git_file "keys" GIT_IGNORE SET
       (update_git_file "keys" GIT_IGNORE SET fs_bac).2).1
    = (update_git_file "keys" GIT_IGNORE SET fs_bac).1.
Proof.
  assert (Forall single_line GIT_IGNORE) as Hsl.
  { apply Forall_forall. intros x Hx. apply list_elem_of_In in Hx.
    vm_compute in Hx. intuition subst; vm_compute; done. }
  split; [exact Hsl|].
  exact (proj1 (apply_idempotent "keys" GIT_IGNORE fs_bac Hsl)).
Defined.

(** The restriction to single-line entries matters: an entry with a line
    break inside is written as two lines and read back as two entries. *)
Remark apply_twice_multiline :
  let entry := "a" +:+ String Py.LF "b" in
  let once := update_git_file "keys" [entry] SET fs_empty in
  let twice := update_git_file "keys" [entry] SET once.2 in
  once.1 = [entry] ∧ twice.1 = ["a"; entry; "b"].
Proof. vm_compute. done. Qed.

(** *** What [REMOVE] does when nothing is left *)

Lemma filter_none {A} (P : A → Prop) `{∀ x, Decision (P x)} (l : list A) :
  (∀ x, x ∈ l → ¬ P x) → filter P l = [].
Proof.
  induction l as [|x l IH]; intros Hl; [done|].
  rewrite filter_cons_False by (apply Hl; left).
  apply IH. intros y Hy. apply Hl. by right.
Qed.

(** [update_git_file] never removes a file: when the filtered list is
    empty it skips the write and returns. *)
Lemma remove_empty_keeps_fs (path : string) (keys : list string)
    (fs : filesystem) :
  (update_git_file path keys REMOVE fs).1 = [] →
  (update_git_file path keys REMOVE fs).2 = fs.
Proof.
  rewrite update_git_file_REMOVE. simpl. intros ->. by rewrite decide_True.
Qed.

Lemma apply_on_missing_file (path : string) (keys : list string)
    (fs : filesystem) :
  files fs !! path = None →
  (update_git_file path keys SET fs).1 = sorted_union [] keys.
Proof.
  intros Hp. rewrite update_git_file_SET. simpl.
  by rewrite read_content_absent.
Qed.

(** [Remove] in terms of its two steps *)
Lemma Remove_steps (path : string) (keys : list string) (fs : filesystem) :
  Remove path keys fs
  = let removed := update_git_file path keys REMOVE fs in
    (removed.1, if decide (removed.1 = []) then delete_git_file path removed.2
                else removed.2).
Proof.
  unfold Remove. by destruct (update_git_file path keys REMOVE fs) as [[|? ?] ?].
Qed.

(** [update_git_file] on its own does not remove the file: after [SET] and
    [REMOVE] of the one entry [x] on a path without a file, the returned
    list is empty and the file that [SET] wrote is still there; only the
    [delete_git_file] step of [Remove] takes it away. *)
Remark roundtrip_keeps_file :
  let applied := update_git_file "keys" ["x"] SET fs_empty in
  let removed := update_git_file "keys" ["x"] REMOVE applied.2 in
  files fs_empty !! "keys" = None
  ∧ removed.1 = []
  ∧ files removed.2 !! "keys" = Some "x"
  ∧ ¬ (removed.1 = [] ∧ files removed.2 !! "keys" = None).
Proof.
  vm_compute. split; [done|]. split; [done|]. split; [done|].
  by intros [_ ?].
Qed.

(** for a non-empty ruleset of single-line entries and a path without a
    file, [SET] followed by [REMOVE] of the same ruleset returns the empty
    list and leaves the file as [SET] wrote it; [delete_git_file] then
    removes it, and the files are those from before *)
Lemma apply_then_remove (path : string) (keys : list string)
    (fs : filesystem) :
  keys ≠ [] → Forall single_line keys → files fs !! path = None →
  let applied := update_git_file path keys SET fs in
  let removed := update_git_file path keys REMOVE applied.2 in
  removed.1 = []
  ∧ removed.2 = applied.2
  ∧ files applied.2 !! path = Some (newline_encode (join_lines applied.1))
  ∧ files (delete_git_file path removed.2) !! path = None
  ∧ files (delete_git_file path removed.2) = files fs.
Proof.
  intros Hne Hsl Hp applied removed.
  assert (applied = (sorted_union [] keys,
                     write_text path (join_lines (sorted_union [] keys)) fs))
    as Happlied.
  { unfold applied. rewrite update_git_file_SET. simpl.
    rewrite read_content_absent by done. rewrite decide_False; [done|].
    by intros [_ ?]%sorted_union_nil_inv. }
  assert (removed.1 = []) as Hremoved.
  { unfold removed. rewrite update_git_file_REMOVE. simpl.
    rewrite Happlied. simpl. rewrite read_content_write.
    - apply filter_none. intros x [_ Hx]%list_elem_of_filter.
      apply elem_of_sorted_union in Hx as [Hx|Hx]; [|by intros ?].
      by apply not_elem_of_nil in Hx.
    - by apply sorted_union_single_line.
    - by intros [_ ?]%sorted_union_nil_inv. }
  assert (removed.2 = applied.2) as Hfs by (by apply remove_empty_keeps_fs).
  split; [done|]. split; [done|]. rewrite Hfs.
  rewrite Happlied. simpl. split; [apply lookup_insert_eq|].
  split.
  - rewrite files_delete_git_file. by rewrite decide_True.
  - apply map_eq. intros q. rewrite files_delete_git_file. simpl.
    case_decide as Hq; [by subst|]. by rewrite lookup_insert_ne.
Qed.

(** C5: for every non-empty ruleset of single-line entries and every path
    without a file, applying the ruleset ([update_git_file] with [SET])
    and then removing it ([Remove]) leaves no entry and no file: the list
    returned is empty, the file does not exist afterwards, and the files
    are those from before. *)
Theorem Apply_Remove_roundtrip (path : string) (keys : list string)
    (fs : filesystem) :
  keys ≠ [] → Forall single_line keys → files fs !! path = None →
  let applied := update_git_file path keys SET fs in
  let removed := Remove path keys applied.2 in
  is_Some (files applied.2 !! path)
  ∧ removed.1 = []
  ∧ files removed.2 !! path = None
  ∧ files removed.2 = files fs.
Proof.
  intros Hne Hsl Hp applied removed.
  destruct (apply_then_remove path keys fs Hne Hsl Hp)
    as (Hnil & _ & Hfile & Hgone & Hfiles).
  unfold removed, applied. rewrite Remove_steps. cbn zeta. cbn [fst snd].
  rewrite Hnil. rewrite decide_True by done.
  split; [by eexists|]. split; [done|]. split; [exact Hgone|exact Hfiles].
Qed.

Lemma Apply_Remove_roundtrip_witness :
  let applied := update_git_file "attrs" GIT_ATTRIBUTES SET fs_other in
  let removed := Remove "attrs" GIT_ATTRIBUTES applied.2 in
  os_path_exists "attrs" applied.2 = true
  ∧ removed.1 = []
  ∧ files removed.2 !! "attrs" = None
  ∧ files removed.2 = files fs_other.
Proof.
  assert (Forall single_line GIT_ATTRIBUTES) as Hsl.
  { apply Forall_forall. intros x Hx. apply list_elem_of_In in Hx.
    vm_compute in Hx. intuition subst; vm_compute; done. }
  destruct (Apply_Remove_roundtrip "attrs" GIT_ATTRIBUTES fs_other)
    as (_ & H1 & H2 & H3); [done|exact Hsl|vm_compute; reflexivity|].
  split; [vm_compute; reflexivity|].
  split; [exact H1|]. split; [exact H2|exact H3].
Defined.

(** [update_git_file] on its own does not remove the file either when a
    removal leaves nothing: the only line [a] of a file is still on disk
    after it, and a [SET] of [b] would start from that line; [Remove] goes
    on to delete the file. *)
Remark remove_empty_keeps_file :
  let removed := update_git_file "keys" ["a"] REMOVE fs_a in
  removed.1 = []
  ∧ files removed.2 !! "keys" = Some "a"
  ∧ (update_git_file "keys" ["b"] SET removed.2).1 = ["a"; "b"]
  ∧ (update_git_file "keys" ["b"] SET fs_empty).1 = ["b"]
  ∧ ¬ (removed.1 = [] → files removed.2 !! "keys" = None).
Proof.
  vm_compute. repeat (split; [done|]). intros H. by specialize (H eq_refl).
Qed.

(** when [update_git_file] with [REMOVE] returns the empty list it leaves
    the file system as it was; once [delete_git_file] has run on the path
    no file is there, and a following [SET] returns and writes what it
    does on any file system without a file at the path *)
Lemma remove_empty_then_delete (path : string) (keys : list string)
    (fs : filesystem) :
  (update_git_file path keys REMOVE fs).1 = [] →
  let removed := (update_git_file path keys REMOVE fs).2 in
  let deleted := delete_git_file path removed in
  removed = fs
  ∧ files deleted !! path = None
  ∧ ∀ required,
      (update_git_file path required SET deleted).1 = sorted_union [] required
      ∧ ∀ fs_absent,
          files fs_absent !! path = None →
          (update_git_file path required SET fs_absent).1
            = (update_git_file path required SET deleted).1
          ∧ files (update_git_file path required SET fs_absent).2 !! path
            = files (update_git_file path required SET deleted).2 !! path.
Proof.
  intros Hnil removed deleted.
  assert (files deleted !! path = None) as Hdel.
  { unfold deleted. rewrite files_delete_git_file. by rewrite decide_True. }
  split; [by apply remove_empty_keeps_fs|]. split; [done|].
  intros required. split; [by apply apply_on_missing_file|].
  intros fs_absent Habs. rewrite !update_git_file_SET. simpl.
  rewrite !read_content_absent by done. split; [done|].
  destruct (decide (sorted_union [] required = [])); [congruence|].
  simpl. by rewrite !lookup_insert_eq.
Qed.

(** C2: for every path and every set of entries to remove, when [Remove]
    returns the empty list the file at the path does not exist afterwards,
    and a following [SET] on the path returns and writes what it does on
    any file system without a file there: it starts from no entries, so
    the result is the sorted, duplicate-free list of the required
    entries. *)
Theorem Remove_empty_deletes (path : string) (keys : list string)
    (fs : filesystem) :
  (Remove path keys fs).1 = [] →
  let after := (Remove path keys fs).2 in
  files after !! path = None
  ∧ ∀ required,
      (update_git_file path required SET after).1 = sorted_union [] required
      ∧ ∀ fs_absent,
          files fs_absent !! path = None →
          (update_git_file path required SET fs_absent).1
            = (update_git_file path required SET after).1
          ∧ files (update_git_file path required SET fs_absent).2 !! path
            = files (update_git_file path required SET after).2 !! path.
Proof.
  rewrite Remove_steps. cbn zeta. cbn [fst snd]. intros Hnil.
  rewrite decide_True by done.
  destruct (remove_empty_then_delete path keys fs Hnil) as (_ & Hgone & Hset).
  split; [exact Hgone|exact Hset].
Qed.

Lemma Remove_empty_deletes_witness :
  (Remove "keys" ["a"] fs_a).1 = []
  ∧ files fs_a !! "keys" = Some "a"
  ∧ files (Remove "keys" ["a"] fs_a).2 !! "keys" = None
  ∧ (update_git_file "keys" ["b"] SET (Remove "keys" ["a"] fs_a).2).1 = ["b"].
Proof.
  assert ((Remove "keys" ["a"] fs_a).1 = []) as Hnil.
  { vm_compute. reflexivity. }
  destruct (Remove_empty_deletes "keys" ["a"] fs_a Hnil) as [Hgone Hset].
  split; [exact Hnil|]. split; [vm_compute; reflexivity|].
  split; [exact Hgone|].
  refine (eq_trans (proj1 (Hset ["b"])) _). vm_compute. reflexivity.
Defined.

(** C6, as stated, fails on [REMOVE]: a file with the line [a] twice keeps
    both after an unrelated entry is removed, and a file whose only line
    is removed is still there although the resulting list is empty. *)
Lemma remove_breaks_invariant :
  let kept := update_git_file "keys" ["b"] REMOVE fs_aa in
  let emptied := update_git_file "keys" ["a"] REMOVE fs_a in
  file_lines "keys" kept.2 = Some ["a"; "a"]
  ∧ ¬ NoDup (["a"; "a"] : list string)
  ∧ emptied.1 = []
  ∧ os_path_exists "keys" emptied.2 = true.
Proof.
  vm_compute. repeat (split; [done|]). split; [|done].
  intros Hnd. apply NoDup_cons in Hnd as [Hnd _]. apply Hnd. left.
Qed.

(** C6, amended: after [SET] with a non-empty set of key entries
    (non-empty single-line strings), and after a [REMOVE] that returns a
    non-empty list, the file exists and its lines are exactly the entries
    returned, none of them empty, and without duplicates after [SET] or
    when the file had no duplicate non-empty lines before.  A [REMOVE]
    that returns the empty list leaves the file system as it was, and the
    file is gone once [delete_git_file] has run. *)
Theorem synchronised_file (path : string) (keys : list string)
    (op : operation) (fs : filesystem) :
  (op = SET → keys ≠ [] ∧ Forall key_entry keys) →
  let result := update_git_file path keys op fs in
  (result.1 ≠ [] →
     file_lines path result.2 = Some result.1
     ∧ (EmptyString ∉ result.1)
     ∧ (op = SET ∨ NoDup (read_content path fs) → NoDup result.1))
  ∧ (result.1 = [] →
     op = REMOVE ∧ result.2 = fs
     ∧ files (delete_git_file path result.2) !! path = None).
Proof.
  intros Hkeys result. pose proof (read_content_key_entry path fs) as Hrc.
  assert (Forall key_entry result.1) as Hres.
  { unfold result. destruct op.
    - rewrite update_git_file_SET. simpl. destruct Hkeys as [_ Hk]; [done|].
      rewrite Forall_forall in *.
      intros x [?|?]%elem_of_sorted_union; eauto.
    - rewrite update_git_file_REMOVE. simpl. rewrite Forall_forall in *.
      intros x [_ ?]%list_elem_of_filter. eauto. }
  assert (result.2 = if decide (result.1 = []) then fs
                     else write_text path (join_lines result.1) fs) as Hfs.
  { unfold result. destruct op;
      [rewrite update_git_file_SET|rewrite update_git_file_REMOVE]; done. }
  split.
  - intros Hne. rewrite Hfs, decide_False by done. split; [|split].
    + apply file_lines_write; [|done].
      eapply Forall_impl; [exact Hres|]. by intros ? [_ ?].
    + intros Hin. rewrite Forall_forall in Hres. by destruct (Hres _ Hin).
    + unfold result. destruct op.
      * intros _. rewrite update_git_file_SET. apply sorted_union_NoDup.
      * intros [?|Hnd]; [done|]. rewrite update_git_file_REMOVE. simpl.
        by apply NoDup_filter.
  - intros Hnil. rewrite Hfs, decide_True by done. split; [|split; [done|]].
    + destruct op; [|done]. destruct Hkeys as [Hk _]; [done|].
      unfold result in Hnil. rewrite update_git_file_SET in Hnil.
      by apply sorted_union_nil_inv in Hnil as [_ ?].
    + rewrite files_delete_git_file. by rewrite decide_True.
Qed.

Lemma synchronised_file_witness :
  let result := update_git_file "keys" ["mango"] SET fs_zebra in
  file_lines "keys" result.2 = Some result.1
  ∧ (EmptyString ∉ result.1) ∧ NoDup result.1.
Proof.
  destruct (synchronised_file "keys" ["mango"] SET fs_zebra) as [Hfile _].
  { intros _. split; [done|]. repeat constructor; vm_compute; done. }
  destruct Hfile as (H1 & H2 & H3); [vm_compute; done|].
  split; [exact H1|]. split; [exact H2|]. apply H3. by left.
Defined.

(** ** The constructor *)

Section Constructor.

Context {World : Type}.
Variable subprocess_run :
  list string → option string → World → (string * string) * World.
Variable os_path_join : string → string → string.

Lemma substring_prefix sub post :
  String.substring 0 (String.length sub) (sub +:+ post) = sub.
Proof.
  induction sub as [|c sub IH].
  - by destruct post.
  - change (String c sub +:+ post) with (String c (sub +:+ post)).
    simpl. by rewrite IH.
Qed.

Lemma substring_occurrence pre sub post :
  String.substring (String.length pre) (String.length sub)
    (pre +:+ sub +:+ post) = sub.
Proof.
  induction pre as [|c pre IH].
  - change (EmptyString +:+ sub +:+ post) with (sub +:+ post).
    apply substring_prefix.
  - change (String c pre +:+ sub +:+ post)
      with (String c (pre +:+ sub +:+ post)).
    simpl. apply IH.
Qed.

Lemma index_occurrence pre sub post :
  is_Some (Py.index (pre +:+ sub +:+ post) sub).
Proof.
  unfold Py.index.
  destruct (String.index 0 sub (pre +:+ sub +:+ post)) eqn:Hi; [by eexists|].
  exfalso. destruct (decide (sub = EmptyString)) as [->|Hne].
  - apply String.index_correct4 in Hi. lia.
  - eapply (String.index_correct3 0 (String.length pre)) in Hi; [|done|lia].
    apply Hi, substring_occurrence.
Qed.

Lemma get_global_gitconfig_dir_ok mode path w :
  origin_listing_consistent subprocess_run mode path w →
  ∃ dir, (get_global_gitconfig_dir subprocess_run mode path w).1 = inr dir.
Proof.
  unfold origin_listing_consistent, get_global_gitconfig_dir.
  destruct (execute _ _ _ _ w) as [f w1].
  destruct (execute _ _ _ _ w1) as [p w2].
  intros (origin & rest & ->).
  destruct (index_occurrence origin (first_line p) rest) as [i ->].
  by eexists.
Qed.

Lemma get_global_gitconfig_dir_error mode path w e :
  (get_global_gitconfig_dir subprocess_run mode path w).1 = inl e →
  ¬ origin_listing_consistent subprocess_run mode path w.
Proof.
  intros He Hok. apply get_global_gitconfig_dir_ok in Hok as [dir Hdir].
  congruence.
Qed.

(** resolving a key-file path never ends in a [ValueError], and succeeds
    when the mode is local with a path, or a directory is known *)
Lemma get_git_file_path_no_ValueError name key mode path dir w msg :
  (get_git_file_path subprocess_run os_path_join name key mode path dir w).1
  ≠ inl (ValueError msg).
Proof.
  unfold get_git_file_path. destruct (String.eqb mode "local").
  - by destruct path.
  - destruct (execute _ _ _ _ w) as [out w1].
    destruct (negb _); [done|]. by destruct dir.
Qed.

Lemma get_git_file_path_ok name key mode path dir w :
  (mode = "local" → is_Some path) → (mode ≠ "local" → is_Some dir) →
  ∃ file,
    (get_git_file_path subprocess_run os_path_join name key mode path dir w).1
    = inr file.
Proof.
  intros Hlocal Hother. unfold get_git_file_path.
  destruct (String.eqb_spec mode "local") as [Hm|Hm].
  - destruct (Hlocal Hm) as [repo ->]. by eexists.
  - destruct (execute _ _ _ _ w) as [out w1].
    destruct (negb _); [by eexists|].
    destruct (Hother Hm) as [d ->]. by eexists.
Qed.

Lemma truthy_is_Some path : Py.truthy path = true → is_Some path.
Proof. destruct path; [by eexists|done]. Qed.

End Constructor.

(** When git lists its settings consistently with and without their
    origin, [Installer.__init__] raises [ValueError] exactly when the mode
    is ['global'] and a repository path is given, or the mode is ['local']
    and no path is given or the path is not a Git repository; for a global
    mode without path and for a local mode with the path of a repository
    it returns the installer, with the mode and path it was given. *)
Lemma Installer_init_ValueError {World : Type}
    (subprocess_run : list string → option string → World → (string * string) * World)
    (os_path_join : string → string → string)
    (m : string) (p : option string) (w : World) :
  (m = "global" → Py.truthy p = false →
   origin_listing_consistent subprocess_run m p w) →
  let result := (Installer_init subprocess_run os_path_join m p w).1 in
  let is_repo := (is_git_repository subprocess_run p w).1 in
  ((∃ msg, result = inl (ValueError msg)) ↔
     (m = "global" ∧ Py.truthy p = true)
     ∨ (m = "local" ∧ (Py.truthy p = false ∨ is_repo = false)))
  ∧ ((m = "global" ∧ Py.truthy p = false)
     ∨ (m = "local" ∧ Py.truthy p = true ∧ is_repo = true) →
     ∃ self, result = inr self ∧ mode self = m ∧ path self = p).
Proof.
  intros Hgit result is_repo. unfold result, is_repo, Installer_init.
  unfold get_git_attributes_path, get_git_ignore_path.
  destruct (String.eqb_spec m "global") as [Hg|Hg];
    destruct (Py.truthy p) eqn:Ht; cbn [andb negb].
  - (* global, with a path *)
    split; [split; [by left|by eexists]|].
    intros [[_ ?]|[? _]]; [done|]. by subst.
  - (* global, without a path *)
    destruct (String.eqb_spec m "local") as [Hl|Hl]; [by subst|].
    cbn [andb]. specialize (Hgit Hg eq_refl).
    destruct (get_global_gitconfig_dir_ok _ _ _ _ Hgit) as [dir Hdir].
    destruct (get_global_gitconfig_dir subprocess_run m p w) as [r w1].
    simpl in Hdir. subst r.
    destruct (get_git_file_path_ok subprocess_run os_path_join
                ".gitattributes" "core.attributesfile" m p (Some dir) w1)
      as [attributes Hattributes]; [done|by eexists|].
    destruct (get_git_file_path _ _ ".gitattributes" _ _ _ _ w1) as [r w2].
    simpl in Hattributes. subst r.
    destruct (get_git_file_path_ok subprocess_run os_path_join
                ".gitignore" "core.excludesfile" m p (Some dir) w2)
      as [ignore Hignore]; [done|by eexists|].
    destruct (get_git_file_path _ _ ".gitignore" _ _ _ _ w2) as [r w3].
    simpl in Hignore. subst r. simpl. split.
    + split; [by intros [? ?]|]. intros [[_ ?]|[? _]]; done.
    + intros _. by eexists.
  - (* not global, with a path *)
    destruct (String.eqb_spec m "local") as [Hl|Hl]; cbn [andb].
    + destruct (is_git_repository subprocess_run p w) as [[] w1]; simpl.
      * destruct (get_git_file_path_ok subprocess_run os_path_join
                    ".gitattributes" "core.attributesfile" m p None w1)
          as [attributes Hattributes]; [by intros; apply truthy_is_Some|done|].
        destruct (get_git_file_path _ _ ".gitattributes" _ _ _ _ w1) as [r w2].
        simpl in Hattributes. subst r.
        destruct (get_git_file_path_ok subprocess_run os_path_join
                    ".gitignore" "core.excludesfile" m p None w2)
          as [ignore Hignore]; [by intros; apply truthy_is_Some|done|].
        destruct (get_git_file_path _ _ ".gitignore" _ _ _ _ w2) as [r w3].
        simpl in Hignore. subst r. simpl. split.
        -- split; [by intros [? ?]|].
           intros [[? _]|[_ [?|?]]]; done.
        -- intros _. by eexists.
      * split; [split; [by right; split; [|right]|by eexists]|].
        intros [[? _]|(_ & _ & ?)]; done.
    + (* neither global nor local *)
      split; [|by intros [[? _]|[? _]]].
      split; [|by intros [[? _]|[? _]]]. intros [msg Hmsg]. exfalso.
      pose proof (get_git_file_path_no_ValueError subprocess_run os_path_join
                    ".gitattributes" "core.attributesfile" m p None w msg) as Ha.
      destruct (get_git_file_path _ _ ".gitattributes" _ _ _ _ w) as [[e|a] w2];
        simpl in *; [congruence|].
      pose proof (get_git_file_path_no_ValueError subprocess_run os_path_join
                    ".gitignore" "core.excludesfile" m p None w2 msg) as Hi.
      destruct (get_git_file_path _ _ ".gitignore" _ _ _ _ w2) as [[e|i] w3];
        simpl in *; congruence.
  - (* not global, without a path *)
    destruct (String.eqb_spec m "local") as [Hl|Hl]; cbn [andb].
    + split; [split; [by right; split; [|left]|by eexists]|].
      intros [[? _]|(_ & ? & _)]; done.
    + split; [|by intros [[? _]|[? _]]].
      split; [|by intros [[? _]|[? _]]]. intros [msg Hmsg]. exfalso.
      pose proof (get_git_file_path_no_ValueError subprocess_run os_path_join
                    ".gitattributes" "core.attributesfile" m p None w msg) as Ha.
      destruct (get_git_file_path _ _ ".gitattributes" _ _ _ _ w) as [[e|a] w2];
        simpl in *; [congruence|].
      pose proof (get_git_file_path_no_ValueError subprocess_run os_path_join
                    ".gitignore" "core.excludesfile" m p None w2 msg) as Hi.
      destruct (get_git_file_path _ _ ".gitignore" _ _ _ _ w2) as [[e|i] w3];
        simpl in *; congruence.
Qed.

Section ListingFound.

Context {World : Type}.
Variable subprocess_run :
  list string → option string → World → (string * string) * World.
Variable os_path_join : string → string → string.

Lemma substring_prefix_inv (t s : string) :
  String.substring 0 (String.length t) s = t → ∃ post, s = t +:+ post.
Proof.
  revert s. induction t as [|c t IH]; intros s.
  - intros _. by exists s.
  - destruct s as [|c' s]; [done|]. simpl. intros [= -> Hs].
    destruct (IH s Hs) as [post ->]. by exists post.
Qed.

Lemma substring_inv (i : nat) (t s : string) :
  String.substring i (String.length t) s = t →
  ∃ pre post, s = pre +:+ t +:+ post.
Proof.
  revert s. induction i as [|i IH]; intros s Hs.
  - destruct (substring_prefix_inv t s Hs) as [post ->].
    by exists EmptyString, post.
  - destruct s as [|c s].
    + destruct t; [|done]. by exists EmptyString, EmptyString.
    + simpl in Hs. destruct (IH s Hs) as (pre & post & ->).
      by exists (String c pre), post.
Qed.

(** [index] finds the text exactly when it occurs *)
Lemma index_is_Some (s sub : string) :
  is_Some (Py.index s sub) ↔ ∃ pre post, s = pre +:+ sub +:+ post.
Proof.
  split.
  - intros [i Hi]. unfold Py.index in Hi.
    apply String.index_correct1 in Hi. by eapply substring_inv.
  - intros (pre & post & ->). apply index_occurrence.
Qed.

Lemma origin_listing_consistent_index (m : string) (p : option string) (w : World) :
  origin_listing_consistent subprocess_run m p w
  ↔ is_Some (Py.index
       (first_line (execute subprocess_run m p ["--list"; "--show-origin"] w).1)
       (first_line
          (execute subprocess_run m p ["--list"]
             (execute subprocess_run m p ["--list"; "--show-origin"] w).2).1)).
Proof.
  unfold origin_listing_consistent.
  destruct (execute _ _ _ _ w) as [f w1]. cbn [fst snd].
  destruct (execute _ _ _ _ w1) as [l w2]. cbn [fst snd].
  by rewrite index_is_Some.
Qed.

(** in global mode without a path, a listing that is not consistent ends
    the constructor in the [ValueError] of [str.index] *)
Lemma Installer_init_not_listed (m : string) (p : option string) (w : World) :
  m = "global" → Py.truthy p = false →
  ¬ origin_listing_consistent subprocess_run m p w →
  (Installer_init subprocess_run os_path_join m p w).1
  = inl (ValueError "substring not found").
Proof.
  intros -> Ht Hnot. rewrite origin_listing_consistent_index in Hnot.
  unfold Installer_init. rewrite Ht.
  cbn [andb negb String.eqb Ascii.eqb Bool.eqb].
  unfold get_global_gitconfig_dir.
  destruct (execute _ _ _ _ w) as [f w1]. cbn [fst snd] in Hnot.
  destruct (execute _ _ _ _ w1) as [l w2]. cbn [fst snd] in Hnot.
  destruct (Py.index (first_line f) (first_line l)) as [i|]; [|done].
  destruct Hnot. by eexists.
Qed.

End ListingFound.

(** C9, as stated, fails with a Git older than 2.8: the arguments are
    consistent (global mode, no path), and the constructor still raises
    [ValueError], from [str.index] in [get_global_gitconfig_dir], because
    the listing with origins is empty. *)
Lemma Installer_init_old_git :
  let result := (Installer_init git_old join_under "global" None tt).1 in
  Py.truthy None = false
  ∧ result = inl (ValueError "substring not found")
  ∧ ¬ ((∃ msg, result = inl (ValueError msg)) ↔
         ("global" = "global" ∧ Py.truthy None = true)
         ∨ ("global" = "local"
            ∧ (Py.truthy None = false
               ∨ (is_git_repository git_old None tt).1 = false))).
Proof.
  intros result.
  assert (result = inl (ValueError "substring not found")) as Hresult.
  { vm_compute. reflexivity. }
  split; [reflexivity|]. split; [exact Hresult|].
  intros [Hraise _]. destruct Hraise as [[_ Hpath]|[Hmode _]].
  - rewrite Hresult. by eexists.
  - discriminate Hpath.
  - discriminate Hmode.
Qed.

(** C9, amended: [Installer.__init__] raises [ValueError] exactly when the
    mode is ['global'] and a repository path is given, or the mode is
    ['local'] and no path is given or the path is not a Git repository,
    or the mode is ['global'] without a path and the first line of
    [git config --list] does not occur in the first line of
    [git config --list --show-origin]; for a global mode without path
    where it does occur, and for a local mode with the path of a
    repository, it returns the installer, with the mode and path it was
    given. *)
Theorem Installer_init_raises {World : Type}
    (subprocess_run : list string → option string → World → (string * string) * World)
    (os_path_join : string → string → string)
    (m : string) (p : option string) (w : World) :
  let result := (Installer_init subprocess_run os_path_join m p w).1 in
  let is_repo := (is_git_repository subprocess_run p w).1 in
  let listed := origin_listing_consistent subprocess_run m p w in
  ((∃ msg, result = inl (ValueError msg)) ↔
     (m = "global" ∧ Py.truthy p = true)
     ∨ (m = "local" ∧ (Py.truthy p = false ∨ is_repo = false))
     ∨ (m = "global" ∧ Py.truthy p = false ∧ ¬ listed))
  ∧ ((m = "global" ∧ Py.truthy p = false ∧ listed)
     ∨ (m = "local" ∧ Py.truthy p = true ∧ is_repo = true) →
     ∃ self, result = inr self ∧ mode self = m ∧ path self = p).
Proof.
  intros result is_repo listed.
  assert (listed ∨ ¬ listed) as [Hlisted|Hnot].
  { unfold listed. rewrite origin_listing_consistent_index.
    destruct (Py.index _ _); [left; by eexists|right; by intros [? ?]]. }
  - destruct (Installer_init_ValueError subprocess_run os_path_join m p w)
      as [Hiff Hok]; [by intros _ _|]. fold result is_repo in Hiff, Hok.
    split.
    + rewrite Hiff. split.
      * intros [?|?]; [by left|by right; left].
      * intros [?|[?|(_ & _ & ?)]]; [by left|by right|done].
    + intros [(? & ? & _)|?]; apply Hok; [by left|by right].
  - destruct (decide (m = "global" ∧ Py.truthy p = false)) as [[Hm Ht]|Hother].
    + assert (result = inl (ValueError "substring not found")) as Hresult.
      { by apply Installer_init_not_listed. }
      split.
      * split; [intros _; right; right; done|intros _; by eexists].
      * intros [(_ & _ & ?)|(Hl & _)]; [done|]. subst. discriminate Hl.
    + destruct (Installer_init_ValueError subprocess_run os_path_join m p w)
        as [Hiff Hok]; [intros ? ?; by destruct Hother|].
      fold result is_repo in Hiff, Hok. split.
      * rewrite Hiff. split.
        -- intros [?|?]; [by left|by right; left].
        -- intros [?|[?|(? & ? & _)]]; [by left|by right|by destruct Hother].
      * intros [(? & ? & _)|?]; apply Hok; [by left|by right].
Qed.

Lemma Installer_init_raises_witness :
  origin_listing_consistent git_plain "global" None tt
  ∧ ∃ self,
      (Installer_init git_plain join_under "global" None tt).1 = inr self
      ∧ mode self = "global" ∧ path self = None
      ∧ git_attributes_path self = "C:/Users/u/.gitattributes".
Proof.
  assert (origin_listing_consistent git_plain "global" None tt) as Hgit.
  { exists ("file:C:/Users/u/.gitconfig" +:+ tab), EmptyString.
    vm_compute. reflexivity. }
  split; [exact Hgit|].
  destruct (Installer_init_raises git_plain join_under "global" None tt)
    as [_ Hok].
  destruct Hok as (self & Hself & Hmode & Hpath); [by left|].
  exists self. split; [exact Hself|]. split; [exact Hmode|].
  split; [exact Hpath|].
  vm_compute in Hself. injection Hself as <-. reflexivity.
Defined.

(** ** [install] and [uninstall] on the file system *)

Section InstallUninstall.

Context {World : Type}.
Variable subprocess_run :
  list string → option string → World → (string * string) * World.

Implicit Types (self : Installer) (w : World) (fs : filesystem).

(** git's answers do not reach the key files *)
Lemma install_files self w fs :
  (install subprocess_run self (w, fs)).2
  = (update_git_file (git_ignore_path self) GIT_IGNORE SET
       (update_git_file (git_attributes_path self) GIT_ATTRIBUTES SET fs).2).2.
Proof.
  unfold install, execute_.
  destruct (execute _ _ _ _ w) as [? w1].
  destruct (update_git_file _ GIT_ATTRIBUTES SET fs) as [? fs1].
  cbn [snd].
  destruct (update_git_file _ GIT_IGNORE SET fs1) as [? fs2]. cbn [snd].
  destruct (String.eqb _ _); [|done].
  destruct (execute _ _ _ _ w1) as [? w2].
  by destruct (execute _ _ _ _ w2) as [? w3].
Qed.

Lemma uninstall_gitattributes_files self w fs :
  (uninstall_gitattributes subprocess_run self (w, fs)).2
  = let removed := update_git_file (git_attributes_path self) GIT_ATTRIBUTES REMOVE fs in
    if decide (removed.1 = [])
    then delete_git_file (git_attributes_path self) removed.2
    else removed.2.
Proof.
  unfold uninstall_gitattributes.
  by destruct (update_git_file _ GIT_ATTRIBUTES REMOVE fs) as [[|? ?] ?].
Qed.

Lemma uninstall_gitignore_files self w fs :
  (uninstall_gitignore subprocess_run self (w, fs)).2
  = let removed := gitignore_keys self fs in
    if decide (removed.1 = [])
    then delete_git_file (git_ignore_path self) removed.2
    else removed.2.
Proof.
  unfold uninstall_gitignore.
  by destruct (gitignore_keys self fs) as [[|? ?] ?].
Qed.

Lemma uninstall_files self w fs :
  (uninstall subprocess_run self (w, fs)).2
  = let fs1 := (uninstall_gitattributes subprocess_run self (w, fs)).2 in
    let removed := gitignore_keys self fs1 in
    if decide (removed.1 = [])
    then delete_git_file (git_ignore_path self) removed.2
    else removed.2.
Proof.
  unfold uninstall.
  rewrite (surjective_pairing
             (uninstall_gitattributes subprocess_run self
                (uninstall_gitconfig subprocess_run self w, fs))).
  rewrite uninstall_gitignore_files.
  by rewrite !uninstall_gitattributes_files.
Qed.

(** step 2 of [uninstall] does to the files what [Remove] does *)
Lemma uninstall_gitattributes_Remove self w fs :
  (uninstall_gitattributes subprocess_run self (w, fs)).2
  = (Remove (git_attributes_path self) GIT_ATTRIBUTES fs).2.
Proof. rewrite uninstall_gitattributes_files, Remove_steps. done. Qed.

End InstallUninstall.

(** *** Installing two rulesets and removing them again *)

Section RoundTrip.

Implicit Types (a i : string) (A I : list string) (fs : filesystem).

Lemma sorted_union_key_entry content keys :
  Forall key_entry content → Forall key_entry keys →
  Forall key_entry (sorted_union content keys).
Proof.
  rewrite !Forall_forall. intros Hc Hk x [?|?]%elem_of_sorted_union; eauto.
Qed.

Lemma sorted_union_not_nil content keys :
  keys ≠ [] → sorted_union content keys ≠ [].
Proof. by intros Hk [_ ?]%sorted_union_nil_inv. Qed.

Lemma filter_key_entries (P : string → Prop) `{∀ x, Decision (P x)} l :
  Forall key_entry l → Forall key_entry (filter P l).
Proof.
  rewrite !Forall_forall. intros Hl x [_ ?]%list_elem_of_filter. eauto.
Qed.

Lemma files_write_text p text fs q :
  files (write_text p text fs) !! q
  = if decide (p = q) then Some (newline_encode text) else files fs !! q.
Proof. simpl. apply lookup_insert. Qed.

(** the two [SET]s of [install] followed by the two [REMOVE]s of
    [uninstall], each with the removal of the file that [uninstall]
    makes on an empty result; the second [REMOVE] reads the attributes
    path [a], as in the source *)
Lemma install_uninstall_files a i A I fs :
  Forall key_entry A → Forall key_entry I → A ≠ [] → I ≠ [] →
  files fs !! a = None → files fs !! i = None →
  let installed := (update_git_file i I SET (update_git_file a A SET fs).2).2 in
  let removed1 := update_git_file a A REMOVE installed in
  let fs1 := if decide (removed1.1 = []) then delete_git_file a removed1.2
             else removed1.2 in
  let removed2 := update_git_file a I REMOVE fs1 in
  let fs2 := if decide (removed2.1 = []) then delete_git_file i removed2.2
             else removed2.2 in
  files fs2 = files fs.
Proof.
  intros HA HI HAne HIne Ha Hi installed removed1 fs1 removed2 fs2.
  pose proof (eq_refl : installed = _) as Dinstalled.
  pose proof (eq_refl : removed1 = _) as Dremoved1.
  pose proof (eq_refl : fs1 = _) as Dfs1.
  pose proof (eq_refl : removed2 = _) as Dremoved2.
  pose proof (eq_refl : fs2 = _) as Dfs2.
  unfold installed at 2 in Dinstalled. unfold removed1 at 2 in Dremoved1.
  unfold fs1 at 2 in Dfs1. unfold removed2 at 2 in Dremoved2.
  unfold fs2 at 2 in Dfs2.
  clearbody installed removed1 fs1 removed2 fs2.
  set (SA := sorted_union [] A).
  assert (Forall key_entry SA) as HSA by (by apply sorted_union_key_entry).
  assert (SA ≠ []) as HSAne by (by apply sorted_union_not_nil).
  assert ((update_git_file a A SET fs).2 = write_text a (join_lines SA) fs)
    as Hset1.
  { rewrite update_git_file_SET. simpl.
    rewrite read_content_absent by done. by rewrite decide_False. }
  rewrite Hset1 in Dinstalled. rewrite update_git_file_SET in Dinstalled.
  cbn zeta in Dinstalled. cbn [snd] in Dinstalled.
  rewrite update_git_file_REMOVE in Dremoved1, Dremoved2.
  cbn zeta in Dremoved1, Dremoved2.
  destruct (decide (a = i)) as [<-|Hai].
  - (* both settings name one file *)
    rewrite read_content_write_key_entries in Dinstalled by done.
    set (SAI := sorted_union SA I) in *.
    assert (Forall key_entry SAI) as HSAI by (by apply sorted_union_key_entry).
    assert (SAI ≠ []) as HSAIne by (by apply sorted_union_not_nil).
    rewrite decide_False in Dinstalled by done.
    assert (read_content a installed = SAI) as Hread1.
    { rewrite Dinstalled. by apply read_content_write_key_entries. }
    rewrite Hread1 in Dremoved1.
    set (L := filter (λ line, line ∉ A) SAI) in *.
    assert (Forall key_entry L) as HL by (by apply filter_key_entries).
    assert (∀ x, x ∈ L → x ∈ I) as HLI.
    { intros x [HxA Hx]%list_elem_of_filter.
      apply elem_of_sorted_union in Hx as [Hx|Hx]; [|done].
      apply elem_of_sorted_union in Hx as [Hx|Hx]; [|done].
      by apply not_elem_of_nil in Hx. }
    assert (read_content a fs1 = [] ∨ read_content a fs1 = L) as Hread2.
    { rewrite Dfs1, Dremoved1. cbn [fst snd].
      destruct (decide (L = [])).
      - left. apply read_content_delete.
      - right. by apply read_content_write_key_entries. }
    assert (filter (λ line, line ∉ I) (read_content a fs1) = []) as Hnil.
    { destruct Hread2 as [->| ->]; [done|].
      apply filter_none. intros x Hx Hx'. by apply Hx', HLI. }
    rewrite Hnil in Dremoved2. rewrite decide_True in Dremoved2 by done.
    rewrite Dfs2, Dremoved2. cbn [fst snd]. rewrite decide_True by done.
    apply map_eq. intros q. rewrite files_delete_git_file.
    destruct (decide (a = q)) as [<-|Hq]; [by rewrite Ha|].
    rewrite Dfs1, Dremoved1. cbn [fst snd].
    destruct (decide (L = [])).
    + rewrite files_delete_git_file, decide_False by done.
      rewrite Dinstalled. by rewrite !files_write_text, !decide_False.
    + rewrite Dinstalled. by rewrite !files_write_text, !decide_False.
  - (* two files *)
    rewrite read_content_write_ne in Dinstalled by done.
    rewrite read_content_absent in Dinstalled by done.
    set (SI := sorted_union [] I) in *.
    assert (SI ≠ []) as HSIne by (by apply sorted_union_not_nil).
    rewrite decide_False in Dinstalled by done.
    assert (read_content a installed = SA) as Hread1.
    { rewrite Dinstalled. rewrite read_content_write_ne by done.
      by apply read_content_write_key_entries. }
    rewrite Hread1 in Dremoved1.
    assert (filter (λ line, line ∉ A) SA = []) as Hnil1.
    { apply filter_none.
      intros x [Hx|Hx]%elem_of_sorted_union Hx'; [|done].
      by apply not_elem_of_nil in Hx. }
    rewrite Hnil1 in Dremoved1. rewrite decide_True in Dremoved1 by done.
    rewrite Dremoved1 in Dfs1. cbn [fst snd] in Dfs1.
    rewrite decide_True in Dfs1 by done.
    assert (read_content a fs1 = []) as Hread2.
    { rewrite Dfs1. apply read_content_delete. }
    rewrite Hread2 in Dremoved2. rewrite filter_nil in Dremoved2.
    rewrite decide_True in Dremoved2 by done.
    rewrite Dfs2, Dremoved2. cbn [fst snd]. rewrite decide_True by done.
    rewrite Dfs1, Dinstalled.
    apply map_eq. intros q. rewrite !files_delete_git_file.
    destruct (decide (i = q)) as [<-|Hq]; [by rewrite Hi|].
    destruct (decide (a = q)) as [<-|Hq']; [by rewrite Ha|].
    by rewrite !files_write_text, !decide_False.
Qed.

End RoundTrip.

(** *** The installed rulesets *)

Lemma GIT_ATTRIBUTES_key_entries : Forall key_entry GIT_ATTRIBUTES.
Proof. apply (bool_decide_unpack _). vm_compute. exact I. Qed.

Lemma GIT_IGNORE_key_entries : Forall key_entry GIT_IGNORE.
Proof. apply (bool_decide_unpack _). vm_compute. exact I. Qed.

(** C1: when neither the attributes file nor the ignore file exists,
    [install] followed by [uninstall] leaves both absent, and the files of
    the file system are those from before the install.  This holds for
    every installer, so in particular for one in global mode, whatever git
    answers. *)
Theorem global_install_uninstall {World : Type}
    (subprocess_run : list string → option string → World → (string * string) * World)
    (self : Installer) (w : World) (fs : filesystem) :
  files fs !! git_attributes_path self = None →
  files fs !! git_ignore_path self = None →
  let after :=
    (uninstall subprocess_run self (install subprocess_run self (w, fs))).2 in
  files after !! git_attributes_path self = None
  ∧ files after !! git_ignore_path self = None
  ∧ files after = files fs.
Proof.
  intros Ha Hi after.
  assert (files after = files fs) as Hfiles.
  { unfold after.
    rewrite (surjective_pairing (install subprocess_run self (w, fs))).
    rewrite uninstall_files, uninstall_gitattributes_files, install_files.
    unfold gitignore_keys.
    apply install_uninstall_files;
      auto using GIT_ATTRIBUTES_key_entries, GIT_IGNORE_key_entries. }
  by rewrite Hfiles.
Qed.

Lemma global_install_uninstall_witness :
  let after := (uninstall git_plain self_plain
                  (install git_plain self_plain (tt, fs_other))).2 in
  (Installer_init git_plain join_under "global" None tt).1 = inr self_plain
  ∧ files after !! "C:/Users/u/.gitattributes" = None
  ∧ files after !! "C:/Users/u/.gitignore" = None
  ∧ files after = files fs_other.
Proof.
  split; [vm_compute; reflexivity|].
  apply (global_install_uninstall git_plain self_plain tt fs_other);
    vm_compute; reflexivity.
Defined.

(** ** The ignore file during [uninstall] *)

Section Frame.

Implicit Types (p q : string) (fs : filesystem) (P : fs_event → Prop).

Lemma extends_by_refl P fs : extends_by P fs fs.
Proof. exists []. by rewrite app_nil_r. Qed.

Lemma extends_by_trans P fs1 fs2 fs3 :
  extends_by P fs1 fs2 → extends_by P fs2 fs3 → extends_by P fs1 fs3.
Proof.
  intros (ev1 & H1 & HP1) (ev2 & H2 & HP2). exists (ev1 ++ ev2).
  split; [by rewrite H2, H1, app_assoc|]. by apply Forall_app.
Qed.

Lemma update_git_file_frame p q keys op fs :
  p ≠ q →
  files (update_git_file p keys op fs).2 !! q = files fs !! q
  ∧ extends_by (λ e, ¬ rewrites q e) fs (update_git_file p keys op fs).2.
Proof.
  intros Hpq.
  assert ((update_git_file p keys op fs).2 = fs
          ∨ ∃ text, (update_git_file p keys op fs).2 = write_text p text fs)
    as [->|[text ->]].
  { destruct op;
      [rewrite update_git_file_SET|rewrite update_git_file_REMOVE];
      cbn zeta; cbn [snd]; case_decide; eauto. }
  - split; [done|apply extends_by_refl].
  - split; [by rewrite files_write_text, decide_False|].
    eexists. split; [done|]. by repeat constructor.
Qed.

Lemma delete_git_file_frame p q fs :
  p ≠ q →
  files (delete_git_file p fs) !! q = files fs !! q
  ∧ extends_by (λ e, ¬ rewrites q e) fs (delete_git_file p fs).
Proof.
  intros Hpq. split; [by rewrite files_delete_git_file, decide_False|].
  unfold delete_git_file. destruct (os_path_exists p fs).
  - eexists. split; [done|]. repeat constructor. by intros ?.
  - apply extends_by_refl.
Qed.

Lemma delete_git_file_no_rewrite p q fs :
  extends_by (λ e, ¬ rewrites q e) fs (delete_git_file p fs).
Proof.
  unfold delete_git_file. destruct (os_path_exists p fs).
  - eexists. split; [done|]. repeat constructor. by intros ?.
  - apply extends_by_refl.
Qed.

End Frame.

(** C10, as stated, fails when both settings of the user name one file:
    that file is then also the ignore file, and [uninstall] rewrites it
    with the line that is left, neither removing it nor leaving it as it
    was. *)
Lemma uninstall_rewrites_shared_file :
  let ignore := git_ignore_path self_shared in
  let after := (uninstall git_shared self_shared (tt, fs_shared)).2 in
  (Installer_init git_shared join_under "global" None tt).1 = inr self_shared
  ∧ files fs_shared !! ignore
      = Some ("*.txt text" +:+ crlf +:+ "*.xls diff=xltrail")
  ∧ files after !! ignore = Some "*.txt text"
  ∧ syscalls after = [FsWrite ignore "*.txt text"; FsWrite ignore "*.txt text"]
  ∧ ¬ (files after !! ignore = None
       ∨ files after !! ignore = files fs_shared !! ignore).
Proof.
  vm_compute. repeat (split; [reflexivity|]). by intros [?|?].
Qed.

(** C10, amended: when the ignore path differs from the attributes path,
    [uninstall] never opens the ignore file for writing, because the
    removal of the ignore ruleset reads and writes the attributes path;
    the ignore file is removed when that removal returns the empty list
    and is left as it was otherwise. *)
Theorem uninstall_ignore_file {World : Type}
    (subprocess_run : list string → option string → World → (string * string) * World)
    (self : Installer) (w : World) (fs : filesystem) :
  git_attributes_path self ≠ git_ignore_path self →
  let ignore := git_ignore_path self in
  let fs1 := (uninstall_gitattributes subprocess_run self (w, fs)).2 in
  let keys := (gitignore_keys self fs1).1 in
  let after := (uninstall subprocess_run self (w, fs)).2 in
  extends_by (λ e, ¬ rewrites ignore e) fs after
  ∧ files after !! ignore
    = (if decide (keys = []) then None else files fs !! ignore)
  ∧ gitignore_keys self fs1
    = update_git_file (git_attributes_path self) GIT_IGNORE REMOVE fs1.
Proof.
  intros Hne ignore fs1 keys after.
  assert (files fs1 !! ignore = files fs !! ignore
          ∧ extends_by (λ e, ¬ rewrites ignore e) fs fs1) as [Hfs1 Hev1].
  { unfold fs1. rewrite uninstall_gitattributes_files. cbn zeta.
    destruct (update_git_file_frame (git_attributes_path self) ignore
                GIT_ATTRIBUTES REMOVE fs Hne) as [Hf He].
    case_decide; [|done].
    destruct (delete_git_file_frame (git_attributes_path self) ignore
                (update_git_file (git_attributes_path self)
                   GIT_ATTRIBUTES REMOVE fs).2 Hne) as [Hf' He'].
    split; [by rewrite Hf'|by eapply extends_by_trans]. }
  destruct (update_git_file_frame (git_attributes_path self) ignore
              GIT_IGNORE REMOVE fs1 Hne) as [Hf2 He2].
  assert (after = if decide (keys = [])
                  then delete_git_file ignore (gitignore_keys self fs1).2
                  else (gitignore_keys self fs1).2) as ->.
  { unfold after. by rewrite uninstall_files. }
  split; [|split; [|done]].
  - eapply extends_by_trans; [exact Hev1|].
    case_decide; [|exact He2].
    eapply extends_by_trans; [exact He2|apply delete_git_file_no_rewrite].
  - case_decide.
    + rewrite files_delete_git_file. by rewrite decide_True.
    + unfold gitignore_keys. by rewrite Hf2.
Qed.

Lemma uninstall_ignore_file_witness :
  let after := (uninstall git_plain self_plain (tt, fs_own_ignore)).2 in
  git_attributes_path self_plain ≠ git_ignore_path self_plain
  ∧ extends_by (λ e, ¬ rewrites "C:/Users/u/.gitignore" e) fs_own_ignore after
  ∧ files after !! "C:/Users/u/.gitignore" = None.
Proof.
  assert (git_attributes_path self_plain ≠ git_ignore_path self_plain) as Hne.
  { vm_compute. discriminate. }
  split; [exact Hne|].
  destruct (uninstall_ignore_file git_plain self_plain tt fs_own_ignore Hne)
    as (Hev & Hfile & _).
  split; [exact Hev|]. refine (eq_trans Hfile _). vm_compute. reflexivity.
Defined.

(** * Further properties of the synchroniser *)

Section MoreKeyFile.

Implicit Types (path : string) (fs : filesystem) (keys l : list string).

Lemma filter_all {A} (P : A → Prop) `{∀ x, Decision (P x)} (l : list A) :
  (∀ x, x ∈ l → P x) → filter P l = l.
Proof.
  induction l as [|x l IH]; intros Hl; [done|].
  rewrite filter_cons_True by (apply Hl; left).
  f_equal. apply IH. intros y Hy. apply Hl. by right.
Qed.

Lemma StronglySorted_filter {A} (R : relation A) (P : A → Prop)
    `{∀ x, Decision (P x)} (l : list A) :
  StronglySorted R l → StronglySorted R (filter P l).
Proof.
  induction 1 as [|x l Hl IH Hx]; [constructor|].
  rewrite filter_cons. case_decide; [|done].
  constructor; [done|]. rewrite Forall_forall in *.
  intros y [_ Hy]%list_elem_of_filter. by apply Hx.
Qed.

(** what [update_git_file] returns and what it leaves on disk *)
Lemma update_git_file_result path keys op fs :
  let result := update_git_file path keys op fs in
  result.1 = match op with
             | SET => sorted_union (read_content path fs) keys
             | REMOVE => filter (λ line, line ∉ keys) (read_content path fs)
             end
  ∧ result.2 = if decide (result.1 = []) then fs
               else write_text path (join_lines result.1) fs.
Proof.
  destruct op; [rewrite update_git_file_SET|rewrite update_git_file_REMOVE];
    done.
Qed.

Lemma update_git_file_pair path keys op fs content :
  (update_git_file path keys op fs).1 = content →
  update_git_file path keys op fs
  = (content, if decide (content = []) then fs
              else write_text path (join_lines content) fs).
Proof.
  intros <-. destruct (update_git_file_result path keys op fs) as [_ H2].
  rewrite <- H2. apply surjective_pairing.
Qed.

Lemma read_content_after_write path l fs :
  Forall key_entry l →
  read_content path (if decide (l = []) then fs
                     else write_text path (join_lines l) fs)
  = if decide (l = []) then read_content path fs else l.
Proof.
  intros Hl. case_decide; [done|]. by apply read_content_write_key_entries.
Qed.

Lemma files_after_rewrite path l l' fs :
  l' ≠ [] →
  files (write_text path (join_lines l')
           (if decide (l = []) then fs else write_text path (join_lines l) fs))
  = files (write_text path (join_lines l') fs).
Proof.
  intros _. case_decide; [done|]. simpl. apply insert_insert_eq.
Qed.

End MoreKeyFile.

(** X1: [update_git_file] changes no file but the one at [path], makes at
    most one call, a write to [path], never a removal, and a file that
    exists at [path] still exists afterwards. *)
Theorem update_git_file_effects (path : string) (keys : list string)
    (op : operation) (fs : filesystem) :
  let after := (update_git_file path keys op fs).2 in
  (∀ q, q ≠ path → files after !! q = files fs !! q)
  ∧ (syscalls after = syscalls fs
     ∨ ∃ bytes, syscalls after = syscalls fs ++ [FsWrite path bytes]
                ∧ files after !! path = Some bytes)
  ∧ (is_Some (files fs !! path) → is_Some (files after !! path)).
Proof.
  intros after. unfold after.
  destruct (update_git_file_result path keys op fs) as [_ ->].
  case_decide.
  - split; [done|]. split; [by left|done].
  - split; [|split].
    + intros q Hq. by rewrite files_write_text, decide_False.
    + right. eexists. split; [done|]. simpl. apply lookup_insert_eq.
    + intros _. rewrite files_write_text, decide_True by done. by eexists.
Qed.

(** X2: the keys count as a set: two key lists with the same members give
    the same result and the same file system, for either operation. *)
Theorem update_git_file_keys_as_set (path : string) (keys keys' : list string)
    (op : operation) (fs : filesystem) :
  (∀ x, x ∈ keys ↔ x ∈ keys') →
  update_git_file path keys op fs = update_git_file path keys' op fs.
Proof.
  intros Hsame.
  assert ((update_git_file path keys op fs).1
          = (update_git_file path keys' op fs).1) as Hres.
  { destruct (update_git_file_result path keys op fs) as [-> _].
    destruct (update_git_file_result path keys' op fs) as [-> _].
    destruct op.
    - apply sorted_union_ext. intros x. by rewrite Hsame.
    - apply list_filter_iff. intros x. by rewrite Hsame. }
  rewrite (update_git_file_pair path keys op fs _ eq_refl).
  rewrite (update_git_file_pair path keys' op fs _ eq_refl).
  by rewrite Hres.
Qed.

Lemma update_git_file_keys_as_set_witness :
  update_git_file "keys" ["b"; "c"; "b"] REMOVE fs_bac
  = update_git_file "keys" ["c"; "b"] REMOVE fs_bac.
Proof.
  apply (update_git_file_keys_as_set "keys" ["b"; "c"; "b"] ["c"; "b"]).
  intros x. rewrite !elem_of_cons, !elem_of_nil. tauto.
Defined.

(** *** How the two operations compose *)

Section Compose.

Implicit Types (path : string) (fs : filesystem) (K : list string).

(** a second [SET] after a first one with key entries *)
Lemma apply_apply path (K1 K2 : list string) fs :
  Forall key_entry K1 →
  let first := update_git_file path K1 SET fs in
  let second := update_git_file path K2 SET first.2 in
  let direct := update_git_file path (K1 ++ K2) SET fs in
  second.1 = direct.1 ∧ files second.2 = files direct.2.
Proof.
  intros HK1 first second direct.
  pose proof (read_content_key_entry path fs) as Hrc.
  set (c1 := sorted_union (read_content path fs) K1).
  assert (Forall key_entry c1) as Hc1 by (by apply sorted_union_key_entry).
  assert (first = (c1, if decide (c1 = []) then fs
                       else write_text path (join_lines c1) fs)) as Hfirst.
  { by apply update_git_file_pair, update_git_file_result. }
  assert (sorted_union
            (if decide (c1 = []) then read_content path fs else c1) K2
          = sorted_union (read_content path fs) (K1 ++ K2)) as Hunion.
  { apply sorted_union_ext. intros x. rewrite elem_of_app.
    case_decide as Hnil.
    - apply sorted_union_nil_inv in Hnil as [_ ->].
      rewrite elem_of_nil. tauto.
    - unfold c1. rewrite elem_of_sorted_union. tauto. }
  set (c := sorted_union (read_content path fs) (K1 ++ K2)) in *.
  assert (second = (c, if decide (c = []) then first.2
                       else write_text path (join_lines c) first.2))
    as Hsecond.
  { apply update_git_file_pair.
    destruct (update_git_file_result path K2 SET first.2) as [-> _].
    rewrite Hfirst. cbn [snd]. by rewrite read_content_after_write. }
  assert (direct = (c, if decide (c = []) then fs
                       else write_text path (join_lines c) fs)) as Hdirect.
  { by apply update_git_file_pair, update_git_file_result. }
  rewrite Hsecond, Hdirect. cbn [fst snd]. split; [done|].
  rewrite Hfirst. cbn [snd]. destruct (decide (c = [])) as [Hc|Hc].
  - assert (c1 = []) as ->; [|done].
    apply sorted_union_nil_inv in Hc as [Hl [? ?]%app_eq_nil]. subst.
    unfold c1. by rewrite Hl.
  - by apply files_after_rewrite.
Qed.

End Compose.

(** X3: applying a ruleset of key entries and then a second ruleset
    returns the same entries and leaves the same files as applying the two
    rulesets at once. *)
Theorem apply_composes (path : string) (K1 K2 : list string) (fs : filesystem) :
  Forall key_entry K1 →
  let first := update_git_file path K1 SET fs in
  let second := update_git_file path K2 SET first.2 in
  let direct := update_git_file path (K1 ++ K2) SET fs in
  second.1 = direct.1 ∧ files second.2 = files direct.2.
Proof. apply apply_apply. Qed.

Lemma apply_composes_witness :
  let first := update_git_file "keys" GIT_ATTRIBUTES SET fs_bac in
  let second := update_git_file "keys" GIT_IGNORE SET first.2 in
  let direct := update_git_file "keys" (GIT_ATTRIBUTES ++ GIT_IGNORE) SET fs_bac in
  second.1 = direct.1 ∧ files second.2 = files direct.2.
Proof.
  apply (apply_composes "keys" GIT_ATTRIBUTES GIT_IGNORE fs_bac).
  apply GIT_ATTRIBUTES_key_entries.
Defined.

(** X4: two rulesets of key entries can be applied in either order: the
    entries returned at the end and the files are the same. *)
Theorem apply_commutes (path : string) (K1 K2 : list string) (fs : filesystem) :
  Forall key_entry K1 → Forall key_entry K2 →
  let one_two :=
    update_git_file path K2 SET (update_git_file path K1 SET fs).2 in
  let two_one :=
    update_git_file path K1 SET (update_git_file path K2 SET fs).2 in
  one_two.1 = two_one.1 ∧ files one_two.2 = files two_one.2.
Proof.
  intros HK1 HK2 one_two two_one.
  destruct (apply_apply path K1 K2 fs HK1) as [H1 H2].
  destruct (apply_apply path K2 K1 fs HK2) as [H3 H4].
  assert (update_git_file path (K1 ++ K2) SET fs
          = update_git_file path (K2 ++ K1) SET fs) as Hswap.
  { assert (∀ x, x ∈ K1 ++ K2 ↔ x ∈ K2 ++ K1) as Hsame.
    { intros x. rewrite !elem_of_app. tauto. }
    assert (sorted_union (read_content path fs) (K1 ++ K2)
            = sorted_union (read_content path fs) (K2 ++ K1)) as Hres.
    { apply sorted_union_ext. intros x. by rewrite Hsame. }
    rewrite (update_git_file_pair path (K1 ++ K2) SET fs _ eq_refl).
    rewrite (update_git_file_pair path (K2 ++ K1) SET fs _ eq_refl).
    destruct (update_git_file_result path (K1 ++ K2) SET fs) as [-> _].
    destruct (update_git_file_result path (K2 ++ K1) SET fs) as [-> _].
    by rewrite Hres. }
  unfold one_two, two_one. rewrite H1, H2, H3, H4. by rewrite Hswap.
Qed.

Lemma apply_commutes_witness :
  (update_git_file "keys" GIT_IGNORE SET
     (update_git_file "keys" GIT_ATTRIBUTES SET fs_zebra).2).1
  = (update_git_file "keys" GIT_ATTRIBUTES SET
       (update_git_file "keys" GIT_IGNORE SET fs_zebra).2).1.
Proof.
  exact (proj1 (apply_commutes "keys" GIT_ATTRIBUTES GIT_IGNORE fs_zebra
                  GIT_ATTRIBUTES_key_entries GIT_IGNORE_key_entries)).
Defined.

(** X5: removing the same keys twice in succession returns the same entries
    and leaves the same files as removing them once. *)
Theorem remove_idempotent (path : string) (keys : list string)
    (fs : filesystem) :
  let once := update_git_file path keys REMOVE fs in
  let twice := update_git_file path keys REMOVE once.2 in
  twice.1 = once.1 ∧ files twice.2 = files once.2.
Proof.
  intros once twice.
  set (r := filter (λ line, line ∉ keys) (read_content path fs)).
  assert (Forall key_entry r) as Hr.
  { apply filter_key_entries, read_content_key_entry. }
  assert (once = (r, if decide (r = []) then fs
                     else write_text path (join_lines r) fs)) as Honce.
  { by apply update_git_file_pair, update_git_file_result. }
  assert (twice.1 = r) as Htwice.
  { unfold twice.
    destruct (update_git_file_result path keys REMOVE once.2) as [-> _].
    rewrite Honce. cbn [snd]. rewrite read_content_after_write by done.
    case_decide; [done|]. apply filter_all.
    by intros x [? _]%list_elem_of_filter. }
  apply update_git_file_pair in Htwice. fold twice in Htwice.
  rewrite Htwice, Honce. cbn [fst snd]. split; [done|].
  destruct (decide (r = [])); [done|]. simpl. apply insert_insert_eq.
Qed.

(** X6: after a removal that leaves entries, a second removal returns what
    one removal of both key lists returns, and leaves the same files when
    entries are left at the end. *)
Theorem remove_composes (path : string) (K1 K2 : list string)
    (fs : filesystem) :
  (update_git_file path K1 REMOVE fs).1 ≠ [] →
  let first := update_git_file path K1 REMOVE fs in
  let second := update_git_file path K2 REMOVE first.2 in
  let direct := update_git_file path (K1 ++ K2) REMOVE fs in
  second.1 = direct.1 ∧ (second.1 ≠ [] → files second.2 = files direct.2).
Proof.
  intros Hne first second direct.
  set (r1 := filter (λ line, line ∉ K1) (read_content path fs)).
  assert (Forall key_entry r1) as Hr1.
  { apply filter_key_entries, read_content_key_entry. }
  assert (first = (r1, if decide (r1 = []) then fs
                       else write_text path (join_lines r1) fs)) as Hfirst.
  { by apply update_git_file_pair, update_git_file_result. }
  assert (r1 ≠ []) as Hr1ne.
  { intros Hnil. apply Hne. fold first. by rewrite Hfirst. }
  set (r := filter (λ line, line ∉ K1 ++ K2) (read_content path fs)).
  assert (filter (λ line, line ∉ K2) r1 = r) as Hr.
  { unfold r1, r. rewrite list_filter_filter. apply list_filter_iff.
    intros x. rewrite not_elem_of_app. tauto. }
  assert (second.1 = r) as Hsecond.
  { unfold second.
    destruct (update_git_file_result path K2 REMOVE first.2) as [-> _].
    rewrite Hfirst. cbn [snd]. rewrite read_content_after_write by done.
    by rewrite decide_False. }
  assert (direct = (r, if decide (r = []) then fs
                       else write_text path (join_lines r) fs)) as Hdirect.
  { by apply update_git_file_pair, update_git_file_result. }
  apply update_git_file_pair in Hsecond. fold second in Hsecond.
  rewrite Hsecond, Hdirect, Hfirst. cbn [fst snd]. split; [done|]. intros Hrne.
  rewrite !(decide_False (P := r = [])) by done.
  by apply files_after_rewrite.
Qed.

Lemma remove_composes_witness :
  (update_git_file "keys" ["b"] REMOVE fs_bac).1 ≠ []
  ∧ (update_git_file "keys" ["c"] REMOVE
       (update_git_file "keys" ["b"] REMOVE fs_bac).2).1 = ["a"].
Proof.
  assert ((update_git_file "keys" ["b"] REMOVE fs_bac).1 ≠ []) as Hne.
  { vm_compute. discriminate. }
  split; [exact Hne|].
  refine (eq_trans (proj1 (remove_composes "keys" ["b"] ["c"] fs_bac Hne)) _).
  vm_compute. reflexivity.
Defined.

(** When the first removal leaves nothing the file is not rewritten, so the
    entries come back at the next read. *)
Remark remove_all_then_remove :
  let first := update_git_file "keys" ["a"] REMOVE fs_a in
  first.1 = []
  ∧ (update_git_file "keys" ["b"] REMOVE first.2).1 = ["a"]
  ∧ (update_git_file "keys" ["a"; "b"] REMOVE fs_a).1 = [].
Proof. vm_compute. done. Qed.

(** X7: removing keys and then applying the same keys returns the same
    entries and leaves the same files as applying them straight away. *)
Theorem remove_then_apply (path : string) (keys : list string)
    (fs : filesystem) :
  let removed := update_git_file path keys REMOVE fs in
  let applied := update_git_file path keys SET removed.2 in
  let direct := update_git_file path keys SET fs in
  applied.1 = direct.1 ∧ files applied.2 = files direct.2.
Proof.
  intros removed applied direct.
  set (r := filter (λ line, line ∉ keys) (read_content path fs)).
  assert (Forall key_entry r) as Hr.
  { apply filter_key_entries, read_content_key_entry. }
  assert (removed = (r, if decide (r = []) then fs
                        else write_text path (join_lines r) fs)) as Hremoved.
  { by apply update_git_file_pair, update_git_file_result. }
  set (c := sorted_union (read_content path fs) keys).
  assert (applied.1 = c) as Happlied.
  { unfold applied.
    destruct (update_git_file_result path keys SET removed.2) as [-> _].
    rewrite Hremoved. cbn [snd]. rewrite read_content_after_write by done.
    case_decide; [done|]. apply sorted_union_ext. intros x.
    unfold r. rewrite list_elem_of_filter.
    destruct (decide (x ∈ keys)); tauto. }
  assert (direct = (c, if decide (c = []) then fs
                       else write_text path (join_lines c) fs)) as Hdirect.
  { by apply update_git_file_pair, update_git_file_result. }
  apply update_git_file_pair in Happlied. fold applied in Happlied.
  rewrite Happlied, Hdirect, Hremoved. cbn [fst snd]. split; [done|].
  destruct (decide (c = [])) as [Hc|Hc].
  - assert (r = []) as ->; [|done].
    apply sorted_union_nil_inv in Hc as [Hl _]. unfold r. by rewrite Hl.
  - by apply files_after_rewrite.
Qed.

(** X8: applying a ruleset of single-line entries and then removing it
    returns the other non-empty lines of the file, sorted and without
    duplicates. *)
Theorem apply_then_remove_rest (path : string) (keys : list string)
    (fs : filesystem) :
  Forall single_line keys →
  let applied := update_git_file path keys SET fs in
  let rest := (update_git_file path keys REMOVE applied.2).1 in
  StronglySorted Py.le rest
  ∧ NoDup rest
  ∧ ∀ x, x ∈ rest ↔ x ∈ read_content path fs ∧ x ∉ keys.
Proof.
  intros Hkeys applied rest.
  pose proof (read_content_key_entry path fs) as Hrc.
  set (c := sorted_union (read_content path fs) keys).
  assert (applied = (c, if decide (c = []) then fs
                        else write_text path (join_lines c) fs)) as Happlied.
  { by apply update_git_file_pair, update_git_file_result. }
  assert (Forall single_line c) as Hc.
  { apply sorted_union_single_line; [|done].
    eapply Forall_impl; [exact Hrc|]. by intros ? [_ ?]. }
  assert (rest = filter (λ line, line ∉ keys)
                   (filter (λ line, line ≠ EmptyString) c)) as ->.
  { unfold rest.
    destruct (update_git_file_result path keys REMOVE applied.2) as [-> _].
    rewrite Happlied. cbn [snd]. case_decide as Hnil.
    - rewrite Hnil. apply sorted_union_nil_inv in Hnil as [-> _]. done.
    - by rewrite read_content_write. }
  split; [|split].
  - do 2 apply StronglySorted_filter. apply sorted_union_Sorted.
  - do 2 apply NoDup_filter. apply sorted_union_NoDup.
  - intros x. rewrite !list_elem_of_filter. unfold c.
    rewrite elem_of_sorted_union. rewrite Forall_forall in Hrc. split.
    + intros (? & _ & [?|?]); done.
    + intros [Hx ?]. destruct (Hrc x Hx). tauto.
Qed.

Lemma apply_then_remove_rest_witness :
  let rest := (update_git_file "keys" GIT_IGNORE REMOVE
                 (update_git_file "keys" GIT_IGNORE SET fs_bac).2).1 in
  Forall single_line GIT_IGNORE
  ∧ StronglySorted Py.le rest
  ∧ NoDup rest
  ∧ ∀ x, x ∈ rest ↔ x ∈ read_content "keys" fs_bac ∧ x ∉ GIT_IGNORE.
Proof.
  assert (Forall single_line GIT_IGNORE) as Hsl.
  { eapply Forall_impl; [apply GIT_IGNORE_key_entries|]. by intros ? [_ ?]. }
  split; [exact Hsl|].
  exact (apply_then_remove_rest "keys" GIT_IGNORE fs_bac Hsl).
Defined.

Example apply_then_remove_rest_bac :
  (update_git_file "keys" GIT_IGNORE REMOVE
     (update_git_file "keys" GIT_IGNORE SET fs_bac).2).1 = ["a"; "b"; "c"].
Proof. vm_compute. reflexivity. Qed.

(** * Further properties of [install] and [uninstall] *)

Section InstallerFiles.

Context {World : Type}.
Variable subprocess_run :
  list string → option string → World → (string * string) * World.

Implicit Types (self : Installer) (w : World) (fs : filesystem).

Lemma GIT_ATTRIBUTES_not_nil : GIT_ATTRIBUTES ≠ [].
Proof. done. Qed.

Lemma GIT_IGNORE_not_nil : GIT_IGNORE ≠ [].
Proof. done. Qed.

(** the two writes of [install] *)
Lemma install_explicit self w fs :
  (install subprocess_run self (w, fs)).2
  = let attributes :=
      sorted_union (read_content (git_attributes_path self) fs) GIT_ATTRIBUTES in
    let fs1 := write_text (git_attributes_path self) (join_lines attributes) fs in
    let ignore :=
      sorted_union (read_content (git_ignore_path self) fs1) GIT_IGNORE in
    write_text (git_ignore_path self) (join_lines ignore) fs1.
Proof.
  rewrite install_files. cbn zeta.
  rewrite (update_git_file_pair _ GIT_ATTRIBUTES SET fs _
             (proj1 (update_git_file_result _ _ SET _))).
  cbn [snd]. rewrite decide_False
    by (apply sorted_union_not_nil, GIT_ATTRIBUTES_not_nil).
  rewrite (update_git_file_pair _ GIT_IGNORE SET _ _
             (proj1 (update_git_file_result _ _ SET _))).
  cbn [snd]. by rewrite decide_False
    by (apply sorted_union_not_nil, GIT_IGNORE_not_nil).
Qed.

(** the writes and removals of [uninstall], in terms of the lines the
    attributes file had *)
Lemma uninstall_explicit self w fs :
  (uninstall subprocess_run self (w, fs)).2
  = let a := git_attributes_path self in
    let rest1 := filter (λ line, line ∉ GIT_ATTRIBUTES) (read_content a fs) in
    let fs1 := if decide (rest1 = []) then delete_git_file a fs
               else write_text a (join_lines rest1) fs in
    let rest2 := filter (λ line, line ∉ GIT_IGNORE) rest1 in
    if decide (rest2 = []) then delete_git_file (git_ignore_path self) fs1
    else write_text a (join_lines rest2) fs1.
Proof.
  rewrite uninstall_files, uninstall_gitattributes_files. cbn zeta.
  unfold gitignore_keys.
  set (a := git_attributes_path self).
  set (rest1 := filter (λ line, line ∉ GIT_ATTRIBUTES) (read_content a fs)).
  assert (Forall key_entry rest1) as Hrest1.
  { apply filter_key_entries, read_content_key_entry. }
  rewrite (update_git_file_pair a GIT_ATTRIBUTES REMOVE fs rest1
             (proj1 (update_git_file_result _ _ REMOVE _))).
  cbn [fst snd].
  set (fs1 := if decide (rest1 = []) then delete_git_file a fs
              else write_text a (join_lines rest1) fs).
  assert ((if decide (rest1 = [])
           then delete_git_file a
                  (if decide (rest1 = []) then fs
                   else write_text a (join_lines rest1) fs)
           else (if decide (rest1 = []) then fs
                 else write_text a (join_lines rest1) fs)) = fs1) as ->.
  { unfold fs1. by destruct (decide (rest1 = [])). }
  assert (read_content a fs1 = rest1) as Hread.
  { unfold fs1. destruct (decide (rest1 = [])) as [->|Hne].
    - apply read_content_delete.
    - by apply read_content_write_key_entries. }
  assert ((update_git_file a GIT_IGNORE REMOVE fs1).1
          = filter (λ line, line ∉ GIT_IGNORE) rest1) as Hres.
  { destruct (update_git_file_result a GIT_IGNORE REMOVE fs1) as [-> _].
    by rewrite Hread. }
  rewrite (update_git_file_pair a GIT_IGNORE REMOVE fs1 _ Hres).
  cbn [fst snd]. by destruct (decide (filter _ rest1 = [])).
Qed.

Lemma file_lines_write_ne p q text fs :
  p ≠ q → file_lines p (write_text q text fs) = file_lines p fs.
Proof.
  intros Hpq. unfold file_lines. rewrite files_write_text.
  by rewrite decide_False.
Qed.

Lemma file_lines_delete p q fs :
  file_lines p (delete_git_file q fs)
  = if decide (q = p) then None else file_lines p fs.
Proof.
  unfold file_lines. rewrite files_delete_git_file. by case_decide.
Qed.

Lemma key_entries_single_line l : Forall key_entry l → Forall single_line l.
Proof. intros Hl. eapply Forall_impl; [exact Hl|]. by intros ? [_ ?]. Qed.

End InstallerFiles.

(** X9: after [install] the attributes file holds every entry of
    [GIT_ATTRIBUTES] and the ignore file every entry of [GIT_IGNORE], each
    on a line of its own, and every non-empty line that either file had
    before is still one of its lines. *)
Theorem install_ensures {World : Type}
    (subprocess_run : list string → option string → World → (string * string) * World)
    (self : Installer) (w : World) (fs : filesystem) :
  let after := (install subprocess_run self (w, fs)).2 in
  (∃ lines, file_lines (git_attributes_path self) after = Some lines
            ∧ (∀ x, x ∈ GIT_ATTRIBUTES → x ∈ lines)
            ∧ (∀ x, x ∈ read_content (git_attributes_path self) fs → x ∈ lines))
  ∧ (∃ lines, file_lines (git_ignore_path self) after = Some lines
              ∧ (∀ x, x ∈ GIT_IGNORE → x ∈ lines)
              ∧ (∀ x, x ∈ read_content (git_ignore_path self) fs → x ∈ lines)).
Proof.
  intros after. unfold after. rewrite install_explicit. cbn zeta.
  set (a := git_attributes_path self). set (i := git_ignore_path self).
  set (c1 := sorted_union (read_content a fs) GIT_ATTRIBUTES).
  assert (Forall key_entry c1) as Hc1.
  { apply sorted_union_key_entry;
      [apply read_content_key_entry|apply GIT_ATTRIBUTES_key_entries]. }
  assert (c1 ≠ []) as Hc1ne
    by (apply sorted_union_not_nil, GIT_ATTRIBUTES_not_nil).
  set (fs1 := write_text a (join_lines c1) fs).
  set (c2 := sorted_union (read_content i fs1) GIT_IGNORE).
  assert (Forall key_entry c2) as Hc2.
  { apply sorted_union_key_entry;
      [apply read_content_key_entry|apply GIT_IGNORE_key_entries]. }
  assert (c2 ≠ []) as Hc2ne
    by (apply sorted_union_not_nil, GIT_IGNORE_not_nil).
  assert (file_lines i (write_text i (join_lines c2) fs1) = Some c2) as Hi.
  { apply file_lines_write; [by apply key_entries_single_line|done]. }
  destruct (decide (a = i)) as [Hai|Hai].
  - assert (read_content i fs1 = c1) as Hread.
    { unfold fs1. rewrite <- Hai. by apply read_content_write_key_entries. }
    assert (∀ x, x ∈ c1 → x ∈ c2) as Hsub.
    { intros x Hx. unfold c2. rewrite elem_of_sorted_union, Hread. by left. }
    split; [rewrite Hai|]; exists c2; (split; [done|]); split.
    + intros x Hx. apply Hsub. unfold c1. rewrite elem_of_sorted_union.
      by right.
    + intros x Hx. apply Hsub. unfold c1. rewrite elem_of_sorted_union.
      left. by rewrite Hai.
    + intros x Hx. unfold c2. rewrite elem_of_sorted_union. by right.
    + intros x Hx. apply Hsub. unfold c1. rewrite elem_of_sorted_union.
      left. by rewrite Hai.
  - split.
    + exists c1. rewrite file_lines_write_ne by done. split; [|split].
      * apply file_lines_write; [by apply key_entries_single_line|done].
      * intros x Hx. unfold c1. rewrite elem_of_sorted_union. by right.
      * intros x Hx. unfold c1. rewrite elem_of_sorted_union. by left.
    + exists c2. split; [done|]. split.
      * intros x Hx. unfold c2. rewrite elem_of_sorted_union. by right.
      * intros x Hx. unfold c2. rewrite elem_of_sorted_union. left.
        unfold fs1. by rewrite read_content_write_ne by done.
Qed.

Lemma sorted_union_absorb (content keys more : list string) :
  (∀ x, x ∈ more → x ∈ sorted_union content keys) →
  sorted_union (sorted_union content keys) more = sorted_union content keys.
Proof.
  intros Hmore. apply sorted_union_ext. intros x. split.
  - intros [Hx|Hx]; [|apply Hmore in Hx]; by apply elem_of_sorted_union in Hx.
  - intros Hx. left. by apply elem_of_sorted_union.
Qed.

(** X10: a second [install] leaves the files as the first one left them. *)
Theorem install_idempotent {World : Type}
    (subprocess_run : list string → option string → World → (string * string) * World)
    (self : Installer) (w : World) (fs : filesystem) :
  let once := install subprocess_run self (w, fs) in
  files (install subprocess_run self once).2 = files once.2.
Proof.
  intros once.
  rewrite (surjective_pairing once). unfold once.
  rewrite (install_explicit _ _ (install subprocess_run self (w, fs)).1).
  cbn [snd]. rewrite !install_explicit. cbn zeta.
  set (a := git_attributes_path self). set (i := git_ignore_path self).
  set (c1 := sorted_union (read_content a fs) GIT_ATTRIBUTES).
  assert (Forall key_entry c1) as Hc1.
  { apply sorted_union_key_entry;
      [apply read_content_key_entry|apply GIT_ATTRIBUTES_key_entries]. }
  assert (c1 ≠ []) as Hc1ne
    by (apply sorted_union_not_nil, GIT_ATTRIBUTES_not_nil).
  set (fs1 := write_text a (join_lines c1) fs).
  set (c2 := sorted_union (read_content i fs1) GIT_IGNORE).
  assert (Forall key_entry c2) as Hc2.
  { apply sorted_union_key_entry;
      [apply read_content_key_entry|apply GIT_IGNORE_key_entries]. }
  assert (c2 ≠ []) as Hc2ne
    by (apply sorted_union_not_nil, GIT_IGNORE_not_nil).
  set (fs2 := write_text i (join_lines c2) fs1).
  assert (read_content i fs2 = c2) as Hreadi
    by (by apply read_content_write_key_entries).
  destruct (decide (a = i)) as [Hai|Hai].
  - assert (read_content i fs1 = c1) as Hread1.
    { unfold fs1. rewrite <- Hai. by apply read_content_write_key_entries. }
    assert (sorted_union (read_content a fs2) GIT_ATTRIBUTES = c2) as ->.
    { rewrite Hai, Hreadi. unfold c2. apply sorted_union_absorb.
      intros x Hx. rewrite elem_of_sorted_union, Hread1. left.
      unfold c1. rewrite elem_of_sorted_union. by right. }
    assert (read_content i (write_text a (join_lines c2) fs2) = c2) as ->.
    { rewrite Hai. by apply read_content_write_key_entries. }
    assert (sorted_union c2 GIT_IGNORE = c2) as ->.
    { unfold c2. apply sorted_union_absorb.
      intros x Hx. rewrite elem_of_sorted_union. by right. }
    apply map_eq. intros q. unfold fs2, fs1. rewrite !files_write_text.
    rewrite Hai. by repeat case_decide.
  - assert (sorted_union (read_content a fs2) GIT_ATTRIBUTES = c1) as ->.
    { unfold fs2. rewrite read_content_write_ne by done.
      unfold fs1. rewrite read_content_write_key_entries by done.
      unfold c1. apply sorted_union_absorb.
      intros x Hx. rewrite elem_of_sorted_union. by right. }
    assert (read_content i (write_text a (join_lines c1) fs2) = c2) as ->.
    { rewrite read_content_write_ne by done. done. }
    assert (sorted_union c2 GIT_IGNORE = c2) as ->.
    { unfold c2. apply sorted_union_absorb.
      intros x Hx. rewrite elem_of_sorted_union. by right. }
    apply map_eq. intros q. unfold fs2, fs1. rewrite !files_write_text.
    by repeat case_decide.
Qed.

(** X11: [install] only writes: every call it makes is a write to the
    attributes path or to the ignore path, it removes nothing, and every
    other file is left as it was. *)
Theorem install_effects {World : Type}
    (subprocess_run : list string → option string → World → (string * string) * World)
    (self : Installer) (w : World) (fs : filesystem) :
  let after := (install subprocess_run self (w, fs)).2 in
  extends_by (λ e, rewrites (git_attributes_path self) e
                   ∨ rewrites (git_ignore_path self) e) fs after
  ∧ ∀ q, q ≠ git_attributes_path self → q ≠ git_ignore_path self →
         files after !! q = files fs !! q.
Proof.
  intros after. unfold after. rewrite install_explicit. cbn zeta. split.
  - eexists. split.
    + simpl. by rewrite <- app_assoc.
    + constructor; [by left|]. constructor; [by right|]. constructor.
  - intros q Ha Hi. by rewrite !files_write_text, !decide_False.
Qed.

(** X12: [uninstall] opens no file for writing but the one at the
    attributes path, removes no file but the two key files, and leaves
    every other file as it was. *)
Theorem uninstall_effects {World : Type}
    (subprocess_run : list string → option string → World → (string * string) * World)
    (self : Installer) (w : World) (fs : filesystem) :
  let after := (uninstall subprocess_run self (w, fs)).2 in
  extends_by (λ e, rewrites (git_attributes_path self) e
                   ∨ e = FsRemove (git_attributes_path self)
                   ∨ e = FsRemove (git_ignore_path self)) fs after
  ∧ ∀ q, q ≠ git_attributes_path self → q ≠ git_ignore_path self →
         files after !! q = files fs !! q.
Proof.
  intros after. unfold after. rewrite uninstall_explicit. cbn zeta.
  set (a := git_attributes_path self). set (i := git_ignore_path self).
  set (P := λ e, rewrites a e ∨ e = FsRemove a ∨ e = FsRemove i).
  assert (∀ text fs', extends_by P fs' (write_text a text fs')) as Hwrite.
  { intros text fs'. eexists. split; [done|].
    constructor; [by left|constructor]. }
  assert (∀ p fs', p = a ∨ p = i → extends_by P fs' (delete_git_file p fs'))
    as Hdelete.
  { intros p fs' Hp. unfold delete_git_file.
    destruct (os_path_exists p fs'); [|apply extends_by_refl].
    eexists. split; [done|]. constructor; [|constructor]. unfold P.
    destruct Hp as [->| ->]; auto. }
  set (rest1 := filter (λ line, line ∉ GIT_ATTRIBUTES) (read_content a fs)).
  set (rest2 := filter (λ line, line ∉ GIT_IGNORE) rest1).
  set (fs1 := if decide (rest1 = []) then delete_git_file a fs
              else write_text a (join_lines rest1) fs).
  assert (extends_by P fs fs1) as Hfs1.
  { unfold fs1. destruct (decide (rest1 = [])); auto. }
  assert (∀ q, q ≠ a → q ≠ i → files fs1 !! q = files fs !! q) as Hframe1.
  { intros q Ha Hi. unfold fs1. destruct (decide (rest1 = [])).
    - by rewrite files_delete_git_file, decide_False.
    - by rewrite files_write_text, decide_False. }
  split.
  - eapply extends_by_trans; [exact Hfs1|].
    destruct (decide (rest2 = [])); auto.
  - intros q Ha Hi. rewrite <- (Hframe1 q Ha Hi).
    destruct (decide (rest2 = [])).
    + by rewrite files_delete_git_file, decide_False.
    + by rewrite files_write_text, decide_False.
Qed.

Lemma filter_nil_Forall {A} (P : A → Prop) `{∀ x, Decision (P x)} (l : list A) :
  filter P l = [] ↔ Forall (λ x, ¬ P x) l.
Proof.
  split.
  - intros Hnil. apply Forall_forall. intros x Hx HP.
    assert (x ∈ filter P l) as Hin by (by apply list_elem_of_filter).
    rewrite Hnil in Hin. by apply not_elem_of_nil in Hin.
  - intros Hl. apply filter_none. by apply Forall_forall.
Qed.

(** X13: after [uninstall] the attributes file, if it is still there, holds
    none of the entries of [GIT_ATTRIBUTES], and its lines are lines it had
    before, in the same order; every non-empty line it had that is neither
    an installed attribute nor an installed ignore pattern is kept. *)
Theorem uninstall_attributes_file {World : Type}
    (subprocess_run : list string → option string → World → (string * string) * World)
    (self : Installer) (w : World) (fs : filesystem) :
  let a := git_attributes_path self in
  let after := (uninstall subprocess_run self (w, fs)).2 in
  (∀ lines, file_lines a after = Some lines →
     sublist lines (read_content a fs)
     ∧ ∀ x, x ∈ GIT_ATTRIBUTES → x ∉ lines)
  ∧ (∀ x, x ∈ read_content a fs → x ∉ GIT_ATTRIBUTES → x ∉ GIT_IGNORE →
       ∃ lines, file_lines a after = Some lines ∧ x ∈ lines).
Proof.
  intros a after. unfold after. rewrite uninstall_explicit. cbn zeta.
  fold a. set (i := git_ignore_path self).
  set (rest1 := filter (λ line, line ∉ GIT_ATTRIBUTES) (read_content a fs)).
  set (rest2 := filter (λ line, line ∉ GIT_IGNORE) rest1).
  assert (Forall key_entry rest1) as Hrest1.
  { apply filter_key_entries, read_content_key_entry. }
  assert (Forall key_entry rest2) as Hrest2 by (by apply filter_key_entries).
  assert (sublist rest1 (read_content a fs)) as Hsub1 by apply sublist_filter.
  assert (sublist rest2 (read_content a fs)) as Hsub2.
  { etrans; [apply sublist_filter|done]. }
  assert (∀ x, x ∈ GIT_ATTRIBUTES → x ∉ rest1) as Hno1.
  { intros x Hx [? _]%list_elem_of_filter. done. }
  assert (∀ x, x ∈ GIT_ATTRIBUTES → x ∉ rest2) as Hno2.
  { intros x Hx [_ ?]%list_elem_of_filter. by eapply Hno1. }
  set (fs1 := if decide (rest1 = []) then delete_git_file a fs
              else write_text a (join_lines rest1) fs).
  assert (file_lines a fs1 = if decide (rest1 = []) then None else Some rest1)
    as Hlines1.
  { unfold fs1. destruct (decide (rest1 = [])).
    - by rewrite file_lines_delete, decide_True.
    - apply file_lines_write; [by apply key_entries_single_line|done]. }
  assert (file_lines a
            (if decide (rest2 = []) then delete_git_file i fs1
             else write_text a (join_lines rest2) fs1)
          = if decide (rest2 = [])
            then (if decide (i = a) then None
                  else if decide (rest1 = []) then None else Some rest1)
            else Some rest2) as ->.
  { destruct (decide (rest2 = [])).
    - rewrite file_lines_delete. by rewrite Hlines1.
    - apply file_lines_write; [by apply key_entries_single_line|done]. }
  split.
  - intros lines Hlines. repeat case_decide; simplify_eq; auto.
  - intros x Hx HxA HxI.
    assert (x ∈ rest2) as Hx2.
    { unfold rest2, rest1. by rewrite !list_elem_of_filter. }
    destruct (decide (rest2 = [])) as [Hnil|?].
    + rewrite Hnil in Hx2. by apply not_elem_of_nil in Hx2.
    + by exists rest2.
Qed.

(** X14: when the two paths differ, [uninstall] removes the ignore file,
    whatever it holds, exactly when every non-empty line of the attributes
    file is an installed attribute or ignore pattern (in particular when
    there is no attributes file); otherwise it leaves the ignore file as it
    was, installed patterns included. *)
Theorem uninstall_ignore_fate {World : Type}
    (subprocess_run : list string → option string → World → (string * string) * World)
    (self : Installer) (w : World) (fs : filesystem) :
  git_attributes_path self ≠ git_ignore_path self →
  let after := (uninstall subprocess_run self (w, fs)).2 in
  files after !! git_ignore_path self
  = if decide (Forall (λ x, x ∈ GIT_ATTRIBUTES ∨ x ∈ GIT_IGNORE)
                 (read_content (git_attributes_path self) fs))
    then None
    else files fs !! git_ignore_path self.
Proof.
  intros Hai after. unfold after. rewrite uninstall_explicit. cbn zeta.
  set (a := git_attributes_path self) in *.
  set (i := git_ignore_path self) in *.
  set (rest1 := filter (λ line, line ∉ GIT_ATTRIBUTES) (read_content a fs)).
  set (rest2 := filter (λ line, line ∉ GIT_IGNORE) rest1).
  assert (rest2 = [] ↔ Forall (λ x, x ∈ GIT_ATTRIBUTES ∨ x ∈ GIT_IGNORE)
                         (read_content a fs)) as Hiff.
  { unfold rest2, rest1. rewrite list_filter_filter, filter_nil_Forall.
    apply Forall_proper; [|done]. intros x.
    destruct (decide (x ∈ GIT_ATTRIBUTES)), (decide (x ∈ GIT_IGNORE)); tauto. }
  destruct (decide (rest2 = [])) as [Hnil|Hne];
    destruct (decide (Forall _ (read_content a fs))) as [Hall|Hall];
    try (by apply Hiff in Hall); try (by apply Hiff in Hnil).
  - by rewrite files_delete_git_file, decide_True.
  - rewrite files_write_text, decide_False by done.
    destruct (decide (rest1 = [])).
    + by rewrite files_delete_git_file, decide_False.
    + by rewrite files_write_text, decide_False.
Qed.

Lemma uninstall_ignore_fate_witness :
  let after := (uninstall git_plain self_plain (tt, fs_own_ignore)).2 in
  git_attributes_path self_plain ≠ git_ignore_path self_plain
  ∧ files fs_own_ignore !! git_ignore_path self_plain
    = Some ("build/" +:+ crlf +:+ "~$*.xls")
  ∧ files after !! git_ignore_path self_plain = None.
Proof.
  assert (git_attributes_path self_plain ≠ git_ignore_path self_plain) as Hne.
  { vm_compute. discriminate. }
  split; [exact Hne|]. split; [vm_compute; reflexivity|].
  refine (eq_trans
            (uninstall_ignore_fate git_plain self_plain tt fs_own_ignore Hne) _).
  vm_compute. reflexivity.
Defined.

(** * Further properties of the constructor *)

Section PathResolution.

Context {World : Type}.
Variable subprocess_run :
  list string → option string → World → (string * string) * World.
Variable os_path_join : string → string → string.

Lemma length_app s1 s2 :
  String.length (s1 +:+ s2) = String.length s1 + String.length s2.
Proof.
  induction s1 as [|c s1 IH]; [done|].
  change (String c s1 +:+ s2) with (String c (s1 +:+ s2)). simpl.
  by rewrite IH.
Qed.

Lemma app_empty_r s : s +:+ EmptyString = s.
Proof.
  induction s as [|c s IH]; [done|].
  change (String c s +:+ EmptyString) with (String c (s +:+ EmptyString)).
  by rewrite IH.
Qed.

Lemma take_app s1 s2 : Py.take (String.length s1) (s1 +:+ s2) = s1.
Proof.
  induction s1 as [|c s1 IH]; [by destruct s2|].
  change (String c s1 +:+ s2) with (String c (s1 +:+ s2)). simpl.
  by rewrite IH.
Qed.

Lemma drop_app s1 s2 : Py.drop (String.length s1) (s1 +:+ s2) = s2.
Proof.
  induction s1 as [|c s1 IH]; [by destruct s2|].
  change (String c s1 +:+ s2) with (String c (s1 +:+ s2)). by simpl.
Qed.

Lemma drop_last_app s1 s2 : Py.drop_last (String.length s2) (s1 +:+ s2) = s1.
Proof.
  unfold Py.drop_last. rewrite length_app.
  replace (String.length s1 + String.length s2 - String.length s2)
    with (String.length s1) by lia.
  apply take_app.
Qed.

(** [index] finds the first occurrence *)
Lemma index_first_occurrence pre sub post :
  (∀ j, j < String.length pre → ¬ occurs_at sub (pre +:+ sub +:+ post) j) →
  Py.index (pre +:+ sub +:+ post) sub = Some (String.length pre).
Proof.
  intros Hfirst. destruct (index_occurrence pre sub post) as [k Hk].
  rewrite Hk. f_equal. unfold Py.index in Hk.
  pose proof (String.index_correct1 _ _ _ _ Hk) as Hat.
  pose proof (String.index_correct2 _ _ _ _ Hk) as Hbefore.
  destruct (Nat.lt_trichotomy k (String.length pre)) as [Hlt|[Heq|Hgt]].
  - by destruct (Hfirst k Hlt).
  - done.
  - destruct (Hbefore (String.length pre)); [lia|done|].
    apply substring_occurrence.
Qed.

End PathResolution.

(** X15: when the first line of [git config --list --show-origin] is
    [file:], a directory, [.gitconfig], a tab and the first line of
    [git config --list], and that setting does not occur earlier in the
    line, [get_global_gitconfig_dir] returns the directory. *)
Theorem get_global_gitconfig_dir_directory {World : Type}
    (subprocess_run : list string → option string → World → (string * string) * World)
    (m : string) (p : option string) (w : World) (dir : string) :
  let listing_with_origin :=
    execute subprocess_run m p ["--list"; "--show-origin"] w in
  let listing := execute subprocess_run m p ["--list"] listing_with_origin.2 in
  let origin := "file:" +:+ dir +:+ ".gitconfig" +:+ tab in
  first_line listing_with_origin.1 = origin +:+ first_line listing.1 →
  (∀ j, j < String.length origin →
        ¬ occurs_at (first_line listing.1) (first_line listing_with_origin.1) j) →
  get_global_gitconfig_dir subprocess_run m p w = (inr dir, listing.2).
Proof.
  intros listing_with_origin listing origin Hline Hfirst.
  unfold get_global_gitconfig_dir.
  fold listing_with_origin.
  destruct listing_with_origin as [f w1] eqn:Hf. cbn [fst snd] in *.
  fold listing. destruct listing as [setting w2] eqn:Hs. cbn [fst snd] in *.
  assert (first_line f = origin +:+ first_line setting +:+ EmptyString)
    as Hline'.
  { by rewrite app_empty_r. }
  rewrite Hline' in Hfirst |- *.
  rewrite index_first_occurrence by done.
  rewrite take_app. unfold origin.
  change ("file:" +:+ dir +:+ ".gitconfig" +:+ tab)
    with (String "f" (String "i" (String "l" (String "e" (String ":"
            (dir +:+ ".gitconfig" +:+ tab)))))).
  cbn [Py.drop].
  pose proof (drop_last_app dir (".gitconfig" +:+ tab)) as Hdir.
  change (String.length (".gitconfig" +:+ tab)) with 11 in Hdir.
  by rewrite Hdir.
Qed.

Lemma get_global_gitconfig_dir_directory_witness :
  get_global_gitconfig_dir git_plain "global" None tt = (inr "C:/Users/u/", tt).
Proof.
  apply (get_global_gitconfig_dir_directory git_plain "global" None tt
           "C:/Users/u/").
  - vm_compute. reflexivity.
  - intros j Hj. change (String.length _) with 27 in Hj.
    do 27 (destruct j as [|j];
           [intros Hat; vm_compute in Hat; discriminate Hat|]).
    exfalso. lia.
Defined.

(** The condition on earlier occurrences matters: when the directory
    itself contains the text of the first setting, the slice is cut there
    and the result is not the directory. *)
Remark get_global_gitconfig_dir_early_occurrence :
  let git (command : list string) (cwd : option string) (w : unit) :=
    if decide (command = ["git"; "config"; "--global"; "--list"; "--show-origin"])
    then ("file:C:/a=b/.gitconfig" +:+ tab +:+ "a=b", "", w)
    else ("a=b", "", w) in
  (get_global_gitconfig_dir git "global" None tt).1 = inr EmptyString.
Proof. vm_compute. reflexivity. Qed.

(** X16: in local mode, for a non-empty path that git takes for a
    repository, the constructor returns an installer whose key files are
    [.gitattributes] and [.gitignore] joined onto that path; no global
    directory is looked up and [git config] is not run. *)
Theorem Installer_init_local {World : Type}
    (subprocess_run : list string → option string → World → (string * string) * World)
    (os_path_join : string → string → string)
    (repo : string) (w : World) :
  repo ≠ EmptyString →
  (is_git_repository subprocess_run (Some repo) w).1 = true →
  Installer_init subprocess_run os_path_join "local" (Some repo) w
  = (inr (MkInstaller "local" (Some repo) None
            (os_path_join repo ".gitattributes")
            (os_path_join repo ".gitignore")),
     (is_git_repository subprocess_run (Some repo) w).2).
Proof.
  intros Hrepo Hgit. unfold Installer_init.
  assert (Py.truthy (Some repo) = true) as ->.
  { simpl. by destruct (String.eqb_spec repo EmptyString). }
  cbn [andb negb String.eqb Ascii.eqb Bool.eqb].
  destruct (is_git_repository subprocess_run (Some repo) w) as [is_repo w1].
  simpl in Hgit. subst is_repo. reflexivity.
Qed.

Lemma Installer_init_local_witness :
  Installer_init git_plain join_under "local" (Some "C:/repo") tt
  = (inr (MkInstaller "local" (Some "C:/repo") None
            (join_under "C:/repo" ".gitattributes")
            (join_under "C:/repo" ".gitignore")), tt).
Proof.
  apply (Installer_init_local git_plain join_under "C:/repo" tt).
  - discriminate.
  - vm_compute. reflexivity.
Defined.

(** X17: a mode other than ['global'] and ['local'] is not rejected: the
    constructor asks [git config] (without [--global]) for the two files
    and returns an installer with them when both are configured, and ends
    in a [TypeError] otherwise, never in a [ValueError]. *)
Theorem Installer_init_other_mode {World : Type}
    (subprocess_run : list string → option string → World → (string * string) * World)
    (os_path_join : string → string → string)
    (m : string) (p : option string) (w : World) :
  m ≠ "global" → m ≠ "local" →
  let attributes :=
    execute subprocess_run m p ["--get"; "core.attributesfile"] w in
  let ignore :=
    execute subprocess_run m p ["--get"; "core.excludesfile"] attributes.2 in
  (Installer_init subprocess_run os_path_join m p w).1
  = if decide (first_line attributes.1 ≠ EmptyString
               ∧ first_line ignore.1 ≠ EmptyString)
    then inr (MkInstaller m p None (first_line attributes.1)
                (first_line ignore.1))
    else inl TypeError.
Proof.
  intros Hg Hl attributes ignore. unfold Installer_init.
  destruct (String.eqb_spec m "global") as [|_]; [done|].
  destruct (String.eqb_spec m "local") as [|_]; [done|].
  cbn [andb]. unfold get_git_attributes_path, get_git_ignore_path.
  unfold get_git_file_path.
  destruct (String.eqb_spec m "local") as [|_]; [done|].
  fold attributes. destruct attributes as [out_a w1]. cbn [fst snd] in *.
  destruct (String.eqb_spec (first_line out_a) EmptyString) as [Ha|Ha];
    cbn [negb].
  - rewrite decide_False; [done|]. by intros [? _].
  - fold ignore. destruct ignore as [out_i w2]. cbn [fst snd] in *.
    destruct (String.eqb_spec (first_line out_i) EmptyString) as [Hi|Hi];
      cbn [negb].
    + rewrite decide_False; [done|]. by intros [_ ?].
    + by rewrite decide_True.
Qed.

Lemma Installer_init_other_mode_witness :
  (Installer_init git_plain join_under "system" None tt).1 = inl TypeError.
Proof.
  refine (eq_trans
            (Installer_init_other_mode git_plain join_under "system" None tt
               _ _) _); [discriminate|discriminate|].
  vm_compute. reflexivity.
Defined.

(** * Properties of the command line *)

Section CommandLineProps.

Context {World : Type}.
Variable subprocess_run :
  list string → option string → World → (string * string) * World.
Variable os_path_join : string → string → string.
Variable cwd : string.

Lemma CommandParser_install_run args w fs printed self w1 :
  CommandParser_installer subprocess_run os_path_join cwd args w
  = Some (inr self, w1) →
  CommandParser_install subprocess_run os_path_join cwd args (w, fs, printed)
  = (None, (install subprocess_run self (w1, fs), printed)).
Proof.
  intros Hself. unfold CommandParser_install. rewrite Hself.
  by destruct (install subprocess_run self (w1, fs)).
Qed.

Lemma CommandParser_uninstall_run args w fs printed self w1 :
  CommandParser_installer subprocess_run os_path_join cwd args w
  = Some (inr self, w1) →
  CommandParser_uninstall subprocess_run os_path_join cwd args (w, fs, printed)
  = (None, (uninstall subprocess_run self (w1, fs), printed)).
Proof.
  intros Hself. unfold CommandParser_uninstall. rewrite Hself.
  by destruct (uninstall subprocess_run self (w1, fs)).
Qed.

End CommandLineProps.

(** X18: with a first argument other than [--local], [install] and
    [uninstall] on the command line print the same message, which names
    the install command, raise nothing, run no process and leave the file
    system as it was; further arguments play no part. *)
Theorem command_line_invalid_option {World : Type}
    (subprocess_run : list string → option string → World → (string * string) * World)
    (os_path_join : string → string → string) (cwd : string)
    (option : string) (rest : list string)
    (w : World) (fs : filesystem) (printed : list string) :
  option ≠ "--local" →
  let unchanged := (None, (w, fs, printed ++ [invalid_option_message option])) in
  CommandParser_install subprocess_run os_path_join cwd (option :: rest)
    (w, fs, printed) = unchanged
  ∧ CommandParser_uninstall subprocess_run os_path_join cwd (option :: rest)
      (w, fs, printed) = unchanged.
Proof.
  intros Hoption unchanged.
  unfold CommandParser_install, CommandParser_uninstall,
    CommandParser_installer.
  by destruct (String.eqb_spec option "--local").
Qed.

Lemma command_line_invalid_option_witness :
  CommandParser_uninstall git_plain join_under "C:/work" ["--global"; "x"]
    (tt, fs_bac, [])
  = (None, (tt, fs_bac, [invalid_option_message "--global"])).
Proof.
  apply (command_line_invalid_option git_plain join_under "C:/work"
           "--global" ["x"] tt fs_bac []).
  discriminate.
Defined.

(** X19: with [--local] in a working directory that git does not take for a
    repository, both commands end in the [ValueError] of the constructor;
    nothing is printed, no file is touched and [git config] is not run. *)
Theorem command_line_local_outside_repository {World : Type}
    (subprocess_run : list string → option string → World → (string * string) * World)
    (os_path_join : string → string → string) (cwd : string)
    (rest : list string)
    (w : World) (fs : filesystem) (printed : list string) :
  cwd ≠ EmptyString →
  (is_git_repository subprocess_run (Some cwd) w).1 = false →
  let raised :=
    (Some (ValueError "not a Git repository"),
     ((is_git_repository subprocess_run (Some cwd) w).2, fs, printed)) in
  CommandParser_install subprocess_run os_path_join cwd ("--local" :: rest)
    (w, fs, printed) = raised
  ∧ CommandParser_uninstall subprocess_run os_path_join cwd ("--local" :: rest)
      (w, fs, printed) = raised.
Proof.
  intros Hcwd Hgit raised.
  assert (Installer_init subprocess_run os_path_join "local" (Some cwd) w
          = (inl (ValueError "not a Git repository"),
             (is_git_repository subprocess_run (Some cwd) w).2)) as Hinit.
  { unfold Installer_init.
    assert (Py.truthy (Some cwd) = true) as ->.
    { simpl. by destruct (String.eqb_spec cwd EmptyString). }
    cbn [andb negb String.eqb Ascii.eqb Bool.eqb].
    destruct (is_git_repository subprocess_run (Some cwd) w) as [is_repo w1].
    simpl in Hgit. by subst is_repo. }
  unfold CommandParser_install, CommandParser_uninstall,
    CommandParser_installer.
  cbn [String.eqb Ascii.eqb Bool.eqb andb]. by rewrite Hinit.
Qed.

(** a git for which no directory is a repository *)
Lemma command_line_local_outside_repository_witness :
  let git (command : list string) (dir : option string) (w : unit) :=
    ("", "fatal: not a git repository", w) in
  (CommandParser_install git join_under "C:/work" ["--local"]
     (tt, fs_bac, [])).1 = Some (ValueError "not a Git repository").
Proof.
  intros git.
  refine (f_equal fst (proj1 (command_line_local_outside_repository git
            join_under "C:/work" [] tt fs_bac [] _ _)));
    [discriminate|vm_compute; reflexivity].
Defined.

(** X20: when a command-line [install] and the [uninstall] that follows it
    build installers with the same two paths, and neither key file existed
    before, both commands return without an exception, print nothing, and
    the files afterwards are those from before the install. *)
Theorem command_line_install_uninstall {World : Type}
    (subprocess_run : list string → option string → World → (string * string) * World)
    (os_path_join : string → string → string) (cwd : string)
    (args : list string) (w : World) (fs : filesystem) (printed : list string)
    (self1 self2 : Installer) (w1 w2 : World) :
  CommandParser_installer subprocess_run os_path_join cwd args w
    = Some (inr self1, w1) →
  let installed :=
    CommandParser_install subprocess_run os_path_join cwd args (w, fs, printed) in
  CommandParser_installer subprocess_run os_path_join cwd args installed.2.1.1
    = Some (inr self2, w2) →
  git_attributes_path self2 = git_attributes_path self1 →
  git_ignore_path self2 = git_ignore_path self1 →
  files fs !! git_attributes_path self1 = None →
  files fs !! git_ignore_path self1 = None →
  let uninstalled :=
    CommandParser_uninstall subprocess_run os_path_join cwd args installed.2 in
  installed.1 = None
  ∧ uninstalled.1 = None
  ∧ files uninstalled.2.1.2 = files fs
  ∧ uninstalled.2.2 = printed.
Proof.
  intros Hself1 installed Hself2 Hattributes Hignore Ha Hi uninstalled.
  assert (installed
          = (None, (install subprocess_run self1 (w1, fs), printed)))
    as Hinstalled by (by apply CommandParser_install_run).
  rewrite Hinstalled in Hself2. cbn [fst snd] in Hself2.
  assert (uninstalled
          = (None, (uninstall subprocess_run self2
                      (w2, (install subprocess_run self1 (w1, fs)).2),
                    printed))) as Huninstalled.
  { unfold uninstalled. rewrite Hinstalled. cbn [snd].
    rewrite (surjective_pairing (install subprocess_run self1 (w1, fs))).
    cbn [fst snd]. by apply CommandParser_uninstall_run. }
  rewrite Hinstalled, Huninstalled. cbn [fst snd].
  split; [done|]. split; [done|]. split; [|done].
  rewrite uninstall_files, uninstall_gitattributes_files, install_files.
  unfold gitignore_keys. cbn zeta. rewrite Hattributes, Hignore.
  apply install_uninstall_files;
    auto using GIT_ATTRIBUTES_key_entries, GIT_IGNORE_key_entries.
Qed.

Lemma command_line_install_uninstall_witness :
  let installed :=
    CommandParser_install git_stateful join_under "C:/work" []
      (store_fresh, fs_other, []) in
  let uninstalled :=
    CommandParser_uninstall git_stateful join_under "C:/work" [] installed.2 in
  installed.2.1.1
    = store_fresh ++ [("diff.xltrail.command", GIT_XLTRAIL_DIFF);
                      ("core.attributesfile", "C:/Users/u/.gitattributes");
                      ("core.excludesfile", "C:/Users/u/.gitignore")]
  ∧ uninstalled.1 = None
  ∧ files uninstalled.2.1.2 = files fs_other
  ∧ uninstalled.2.1.1 = store_fresh.
Proof.
  intros installed uninstalled.
  split; [vm_compute; reflexivity|].
  destruct (command_line_install_uninstall git_stateful join_under "C:/work"
              [] store_fresh fs_other []
              self_plain self_plain store_fresh installed.2.1.1)
    as (_ & Hnone & Hfiles & _); try (vm_compute; reflexivity).
  split; [exact Hnone|]. split; [exact Hfiles|]. vm_compute. reflexivity.
Defined.

(** * Properties of [create_open_key] *)

Section OpenKey.

Variable py_int : string → exn + Z.

Implicit Types (keys : list (string * string)) (numbers : list Z).

Lemma first_gap_bounds (start : nat) numbers :
  (start ≤ first_gap start numbers ≤ start + length numbers)%nat.
Proof.
  revert start. induction numbers as [|j numbers IH]; intros start; simpl.
  - lia.
  - case_decide; [|lia]. specialize (IH (S start)). lia.
Qed.

Lemma first_gap_none_last (start : nat) numbers j0 :
  numbers ≠ [] → first_gap start numbers = start + length numbers →
  List.last numbers j0 = Z.of_nat (start + length numbers - 1).
Proof.
  revert start j0. induction numbers as [|j numbers IH]; intros start j0 Hne;
    [done|]. simpl. case_decide as Hj.
  - intros Hgap. destruct numbers as [|j' numbers'].
    + subst j. simpl. f_equal. lia.
    + change (List.last (j :: j' :: numbers') j0)
        with (List.last (j' :: numbers') j0).
      rewrite (IH (S start) j0); [|done|simpl in *; lia].
      f_equal. simpl. lia.
  - intros ?. lia.
Qed.

Lemma first_gap_some_last (start : nat) numbers j0 :
  first_gap start numbers = start + length numbers - 1 →
  first_gap start numbers ≠ start + length numbers →
  List.last numbers j0 ≠ Z.of_nat (first_gap start numbers).
Proof.
  revert start j0. induction numbers as [|j numbers IH]; intros start j0;
    [simpl; lia|]. simpl. case_decide as Hj.
  - intros Hlast Hgap. destruct numbers as [|j' numbers'].
    + simpl in *. lia.
    + apply (IH (S start) j0); simpl in *; lia.
  - intros Hlast _. destruct numbers as [|j' numbers']; [done|].
    simpl in Hlast. lia.
Qed.

Lemma open_key_scan_numbered keys numbers (i last : nat) :
  numbered py_int keys numbers →
  open_key_scan py_int i last keys
  = inr (if decide (first_gap i numbers = i + length numbers)
         then match numbers with
              | [] => last
              | _ :: _ => i + length numbers - 1
              end
         else first_gap i numbers).
Proof.
  intros Hnum. revert i last.
  induction Hnum as [|[n v] j keys numbers Hj Hnum IH]; intros i last.
  - simpl. rewrite decide_True by lia. done.
  - simpl in *. rewrite Hj. destruct (decide (j = Z.of_nat i)) as [->|Hne].
    + rewrite decide_False by (by intros ?). rewrite IH. f_equal.
      pose proof (first_gap_bounds (S i) numbers).
      destruct numbers; simpl in *; repeat case_decide; lia.
    + rewrite decide_True by (by intros ?). rewrite decide_False by lia. done.
Qed.

Lemma last_cons_default {A} (a d : A) (l : list A) :
  List.last (a :: l) d = List.last l a.
Proof.
  revert a d. induction l as [|b l IH]; intros a d; [done|].
  change (List.last (a :: b :: l) d) with (List.last (b :: l) d).
  by rewrite (IH b d), (IH b a).
Qed.

Lemma numbered_last first rest j numbers :
  numbered py_int (first :: rest) (j :: numbers) →
  open_number py_int (List.last rest first).1 = inr (List.last numbers j).
Proof.
  intros Hnum. apply Forall2_cons in Hnum as [Hj Hnum].
  revert first j Hj. induction Hnum as [|kv j' rest numbers Hj' Hnum IH];
    intros first j Hj; [done|]. rewrite !last_cons_default. by apply IH.
Qed.

(** the name for a new key is that of the first gap *)
Lemma create_open_key_numbered keys numbers :
  numbered py_int keys numbers →
  create_open_key py_int keys = inr (open_name (first_gap 0 numbers)).
Proof.
  intros Hall. destruct Hall as [|first j rest tail Hj Htail]; [done|].
  assert (numbered py_int (first :: rest) (j :: tail)) as Hall
    by (by constructor).
  unfold create_open_key.
  rewrite (open_key_scan_numbered _ _ 0 0 Hall).
  rewrite (numbered_last _ _ _ _ Hall).
  assert (length (first :: rest) = length (j :: tail)) as Hlens
    by (by eapply Forall2_length).
  pose proof (first_gap_bounds 0 (j :: tail)) as Hbounds.
  rewrite Hlens. unfold open_name.
  set (numbers := j :: tail) in *.
  assert (0 < length numbers) as Hn by (unfold numbers; simpl; lia).
  assert (List.last tail j = List.last numbers j) as ->.
  { unfold numbers. by rewrite last_cons_default. }
  set (g := first_gap 0 numbers) in *.
  set (n := length numbers) in *.
  destruct (decide (g = 0 + n)) as [Hfull|Hgap].
  - pose proof (first_gap_none_last 0 numbers j) as Hlast.
    rewrite Hlast by done. fold n.
    destruct (decide (0 + n - 1 = n - 1 ∧ _)) as [_|Hno];
      [|exfalso; apply Hno; split; [lia|done]].
    rewrite (decide_True (P := S (0 + n - 1) ≠ 0)) by lia.
    rewrite (decide_False (P := g = 0)) by lia.
    by replace (S (0 + n - 1)) with g by lia.
  - destruct (decide (g = n - 1 ∧ List.last numbers j = Z.of_nat g))
      as [[Hlast1 Hlast2]|_]; [|by repeat case_decide].
    exfalso. apply (first_gap_some_last 0 numbers j); fold g; fold n;
      [lia|lia|done].
Qed.

(** a new number among increasing numbers *)
Lemma first_gap_fresh (start : nat) numbers :
  StronglySorted Z.lt numbers →
  Forall (λ j, Z.of_nat start ≤ j)%Z numbers →
  Z.of_nat (first_gap start numbers) ∉ numbers.
Proof.
  intros Hsorted. revert start.
  induction Hsorted as [|j numbers Hsorted IH Hj]; intros start Hfrom.
  - apply not_elem_of_nil.
  - apply Forall_cons in Hfrom as [Hstart Hfrom]. simpl.
    rewrite Forall_forall in Hj.
    destruct (decide (j = Z.of_nat start)) as [->|Hne].
    + apply not_elem_of_cons. split.
      * pose proof (first_gap_bounds (S start) numbers). lia.
      * apply IH. apply Forall_forall. intros x Hx.
        specialize (Hj x Hx). lia.
    + apply not_elem_of_cons. split; [done|].
      intros Hin. specialize (Hj _ Hin). lia.
Qed.

End OpenKey.

Section OpenNames.

Variable py_int : string → exn + Z.

Lemma digit_char_not_O (d : nat) :
  d < 10 → Ascii.eqb (digit_char d) "O" = false.
Proof.
  intros Hd. do 10 (destruct d as [|d]; [reflexivity|]). lia.
Qed.

Lemma str_of_nat_go_digits (fuel n : nat) acc :
  has_char "O" acc = false → acc ≠ EmptyString ∨ 0 < fuel →
  has_char "O" (str_of_nat_go fuel n acc) = false
  ∧ str_of_nat_go fuel n acc ≠ EmptyString.
Proof.
  revert n acc. induction fuel as [|fuel IH]; intros n acc Hacc Hne.
  - cbn [str_of_nat_go]. split; [done|]. destruct Hne as [?|?]; [done|lia].
  - cbn [str_of_nat_go].
    assert (has_char "O" (String (digit_char (n mod 10)) acc) = false) as Hd.
    { cbn [has_char]. rewrite digit_char_not_O; [exact Hacc|].
      apply Nat.mod_upper_bound. lia. }
    destruct (Nat.ltb n 10).
    + split; [exact Hd|discriminate].
    + apply IH; [exact Hd|left; discriminate].
Qed.

Lemma str_of_nat_digits (n : nat) :
  has_char "O" (str_of_nat n) = false ∧ str_of_nat n ≠ EmptyString.
Proof. apply str_of_nat_go_digits; [done|right; lia]. Qed.

Lemma str_replace_absent (s : string) :
  has_char "O" s = false → str_replace_go "OPEN" EmptyString 0 s = s.
Proof.
  induction s as [|c s IH]; [done|].
  cbn [str_replace_go has_char String.prefix].
  intros [Hc Hs]%orb_false_elim.
  destruct (ascii_dec "O" c) as [<-|_]; [discriminate Hc|]. by rewrite IH.
Qed.

Lemma str_replace_OPEN (s : string) :
  has_char "O" s = false →
  str_replace "OPEN" EmptyString ("OPEN" +:+ s) = s.
Proof.
  intros Hs. unfold str_replace.
  change ("OPEN" +:+ s)
    with (String "O" (String "P" (String "E" (String "N" s)))).
  cbn [str_replace_go].
  assert (String.prefix "OPEN"
            (String "O" (String "P" (String "E" (String "N" s)))) = true)
    as -> by (by destruct s).
  cbn [String.length Nat.sub str_replace_go].
  change (EmptyString +:+ ?x) with x. by apply str_replace_absent.
Qed.

Lemma open_number_open_name (k : nat) :
  py_int (str_of_nat k) = inr (Z.of_nat k) →
  open_number py_int (open_name k) = inr (Z.of_nat k).
Proof.
  intros Hint. unfold open_name. case_decide as Hk; [by subst|].
  unfold open_number. destruct (str_of_nat_digits k) as [Hdigits Hne].
  rewrite str_replace_OPEN by done.
  by destruct (String.eqb_spec (str_of_nat k) EmptyString).
Qed.

Lemma numbered_open_names keys (ks : list nat) :
  Forall (λ k, py_int (str_of_nat k) = inr (Z.of_nat k)) ks →
  keys.*1 = open_name <$> ks →
  numbered py_int keys (Z.of_nat <$> ks).
Proof.
  intros Hint. revert keys.
  induction Hint as [|k ks Hk Hks IH]; intros [|kv keys] Hnames; try done.
  - constructor.
  - injection Hnames as Hkv Hrest. constructor; [|by apply IH].
    rewrite Hkv. by apply open_number_open_name.
Qed.

End OpenNames.

(** X21: when [int] gives a number for what is left of every installed name
    once [OPEN] is taken out, [create_open_key] returns the name of the
    first position whose entry does not carry the number of that position,
    and of the position after the last when there is none; the name for
    position zero is [OPEN] without a number. *)
Theorem create_open_key_first_gap (py_int : string → exn + Z)
    (keys : list (string * string)) (numbers : list Z) :
  numbered py_int keys numbers →
  create_open_key py_int keys = inr (open_name (first_gap 0 numbers)).
Proof. apply create_open_key_numbered. Qed.

Lemma create_open_key_first_gap_witness :
  create_open_key int_of_digits [("OPEN", "a"); ("OPEN3", "b"); ("OPEN07", "c")]
  = inr "OPEN1".
Proof.
  apply (create_open_key_first_gap int_of_digits _ [0; 3; 7]%Z).
  repeat constructor.
Defined.

(** X22: when the installed names carry non-negative numbers in increasing
    order, the name that [create_open_key] returns carries a number that
    none of them has. *)
Theorem create_open_key_fresh (py_int : string → exn + Z)
    (keys : list (string * string)) (numbers : list Z) :
  numbered py_int keys numbers →
  StronglySorted Z.lt numbers →
  Forall (λ j, 0 ≤ j)%Z numbers →
  ∃ k, create_open_key py_int keys = inr (open_name k)
       ∧ ∀ kv, kv ∈ keys → open_number py_int kv.1 ≠ inr (Z.of_nat k).
Proof.
  intros Hnum Hsorted Hpos. exists (first_gap 0 numbers).
  split; [by apply create_open_key_numbered|].
  intros kv Hkv Heq.
  apply (first_gap_fresh 0 numbers Hsorted Hpos).
  apply list_elem_of_lookup in Hkv as [i Hi].
  destruct (Forall2_lookup_l _ _ _ _ _ Hnum Hi) as (j & Hj & Hkvj).
  apply list_elem_of_lookup. exists i. rewrite Hj. f_equal. congruence.
Qed.

Lemma create_open_key_fresh_witness :
  ∃ k, create_open_key int_of_digits [("OPEN", "a"); ("OPEN1", "b"); ("OPEN4", "c")]
       = inr (open_name k)
       ∧ ∀ kv, kv ∈ [("OPEN", "a"); ("OPEN1", "b"); ("OPEN4", "c")] →
               open_number int_of_digits kv.1 ≠ inr (Z.of_nat k).
Proof.
  apply (create_open_key_fresh int_of_digits _ [0; 1; 4]%Z).
  - repeat constructor.
  - repeat constructor; lia.
  - repeat constructor; lia.
Defined.

(** The caller sorts the pairs by name, as strings; from ten numbered keys
    on that is not the order of the numbers, and the name returned is one
    that is installed. *)
Remark create_open_key_string_order :
  let names := ["OPEN"; "OPEN1"; "OPEN10"; "OPEN2"; "OPEN3"] in
  Py.sorted names = names
  ∧ create_open_key int_of_digits ((λ n, (n, EmptyString)) <$> names)
    = inr "OPEN2".
Proof. vm_compute. done. Qed.

(** X23: for installed names [OPEN], [OPEN1], [OPEN2], ... in any order and
    selection, with [int] reading their decimal numerals, [create_open_key]
    returns the name of the first position that does not hold the name
    with its own number; for the names up to [OPEN] with [n - 1] in order
    that is [OPEN] with [n]. *)
Theorem create_open_key_names (py_int : string → exn + Z)
    (keys : list (string * string)) (ks : list nat) :
  Forall (λ k, py_int (str_of_nat k) = inr (Z.of_nat k)) ks →
  keys.*1 = open_name <$> ks →
  create_open_key py_int keys = inr (open_name (first_gap 0 (Z.of_nat <$> ks)))
  ∧ (ks = seq 0 (length ks) →
     create_open_key py_int keys = inr (open_name (length ks))).
Proof.
  intros Hint Hnames.
  assert (create_open_key py_int keys
          = inr (open_name (first_gap 0 (Z.of_nat <$> ks)))) as Hkey.
  { by apply create_open_key_numbered, numbered_open_names. }
  split; [done|]. intros Hseq. rewrite Hkey. do 2 f_equal.
  assert (∀ start n, first_gap start (Z.of_nat <$> seq start n) = start + n)
    as Hgap.
  { intros start n. revert start. induction n as [|n IH]; intros start.
    - simpl. lia.
    - simpl. rewrite decide_True by done. rewrite IH. lia. }
  rewrite Hseq at 1. by rewrite Hgap.
Qed.

Lemma create_open_key_names_witness :
  create_open_key int_of_digits
    [("OPEN", "/R a.xll"); ("OPEN1", "/R b.xll"); ("OPEN2", "/R c.xll")]
  = inr "OPEN3".
Proof.
  refine (proj2 (create_open_key_names int_of_digits _ [0; 1; 2] _ _) _).
  - repeat constructor.
  - reflexivity.
  - reflexivity.
Defined.

(** * How an existing file is read *)

Section LineEndings.

Implicit Types (e t r : string) (l : list string).

Lemma decode_entry e r :
  has_char Py.CR e = false →
  newline_decode (e +:+ r) = e +:+ newline_decode r.
Proof.
  induction e as [|c e IH]; [done|]. intros [Hc He]%orb_false_elim.
  change (String c e +:+ r) with (String c (e +:+ r)).
  cbn [newline_decode]. rewrite Hc. by rewrite IH.
Qed.

Lemma decode_terminator t r :
  t ∈ [String Py.LF EmptyString; crlf; String Py.CR EmptyString] →
  no_leading_lf r →
  newline_decode (t +:+ r) = String Py.LF (newline_decode r).
Proof.
  rewrite !elem_of_cons, elem_of_nil. intros [->|[->|[->|[]]]] Hr.
  - done.
  - done.
  - destruct r as [|c r]; [done|]. simpl in Hr.
    change (String Py.CR EmptyString +:+ String c r)
      with (String Py.CR (String c r)).
    cbn [newline_decode]. by rewrite Hr.
Qed.

Lemma key_entry_no_leading_lf e r : key_entry e → no_leading_lf (e +:+ r).
Proof.
  intros [Hne [Hlf _]]. destruct e as [|c e]; [done|].
  change (String c e +:+ r) with (String c (e +:+ r)). simpl in *.
  by apply orb_false_elim in Hlf as [? _].
Qed.

Lemma decode_encode_free e :
  has_char Py.CR e = false → newline_decode e = e.
Proof.
  intros He. rewrite <- (app_empty_r e) at 1. rewrite decode_entry by done.
  apply app_empty_r.
Qed.

Lemma read_lines_cons e t r :
  key_entry e →
  t ∈ [String Py.LF EmptyString; crlf; String Py.CR EmptyString] →
  no_leading_lf r →
  filter (λ line, line ≠ EmptyString)
    (Py.split Py.LF (newline_decode (e +:+ t +:+ r)))
  = e :: filter (λ line, line ≠ EmptyString)
           (Py.split Py.LF (newline_decode r)).
Proof.
  intros [Hne [Hlf Hcr]] Ht Hr.
  rewrite decode_entry by done. rewrite decode_terminator by done.
  rewrite split_app by done. by rewrite filter_cons_True.
Qed.

End LineEndings.

(** X24: an existing file is read the same whether its lines end in a line
    feed, in carriage return and line feed, or in a carriage return alone,
    and whether or not the last line is terminated: for key entries
    written one per line, the entries read are those entries, in order. *)
Theorem read_content_line_endings (path : string) (fs : filesystem)
    (l : list string) (t : string) (trailing : bool) :
  Forall key_entry l →
  t ∈ [String Py.LF EmptyString; crlf; String Py.CR EmptyString] →
  files fs !! path = Some (lines_with t trailing l) →
  read_content path fs = l.
Proof.
  intros Hl Ht Hfile. unfold read_content. rewrite Hfile. clear Hfile.
  induction Hl as [|e l He Hl IH]; [done|].
  destruct l as [|e' l'].
  - destruct He as [Hne [Hlf Hcr]]. cbn [lines_with]. destruct trailing.
    + pose proof (read_lines_cons e t EmptyString) as Hread.
      rewrite app_empty_r in Hread. by rewrite Hread.
    + rewrite decode_encode_free by done.
      rewrite split_no_sep by done. by rewrite filter_cons_True.
  - change (lines_with t trailing (e :: e' :: l'))
      with (e +:+ t +:+ lines_with t trailing (e' :: l')).
    rewrite read_lines_cons; [by rewrite IH|done|done|].
    apply Forall_cons in Hl as [He' _].
    destruct l' as [|e'' l''].
    + cbn [lines_with]. destruct trailing; [|destruct e'].
      * by apply key_entry_no_leading_lf.
      * by destruct He'.
      * destruct He' as [_ [Hlf _]]. simpl in *.
        by apply orb_false_elim in Hlf as [? _].
    + change (lines_with t trailing (e' :: e'' :: l''))
        with (e' +:+ t +:+ lines_with t trailing (e'' :: l'')).
      by apply key_entry_no_leading_lf.
Qed.

Lemma read_content_line_endings_witness :
  let unix := Filesystem {[ "keys" := "*.txt text" +:+ String Py.LF "build/"
                                       +:+ String Py.LF EmptyString ]} [] in
  read_content "keys" unix = ["*.txt text"; "build/"].
Proof.
  intros unix.
  apply (read_content_line_endings "keys" unix ["*.txt text"; "build/"]
           (String Py.LF EmptyString) true).
  - apply (bool_decide_unpack _). vm_compute. exact I.
  - left.
  - vm_compute. reflexivity.
Defined.
